(** * Data_Prep: the row-count scanner and the taxonomy flattener

    A shallow embedding of [data_analysis.py] (bottom-up scan for the last
    populated row of every sheet, process-pool fan-out, text report) and of
    the parts of [Xlsx_to_parquet.py] that normalise cells and assign the
    surrogate key, with the properties of the specification proved (or
    refuted) against them. *)

From Stdlib Require Import ZArith Lia Permutation Sorted.
From stdpp Require Import gmap strings list sorting pretty.

Local Open Scope Z_scope.

(** ** Python idioms shared by the scripts *)

(** [range(start, stop)]. *)
Definition py_range (start stop : Z) : list Z :=
  map (fun k : nat => start + Z.of_nat k) (seq 0 (Z.to_nat (stop - start))).

(** [range(start, stop, -1)]. *)
Definition py_range_down (start stop : Z) : list Z :=
  map (fun k : nat => start - Z.of_nat k) (seq 0 (Z.to_nat (start - stop))).

(** Exceptions that travel through the scripts. *)
Inductive exn :=
| IOError (msg : string)      (* load_workbook could not open or parse the file *)
| KeyError (key : string)     (* wb[sheet] / order[...] on a missing key *)
| ValueError (msg : string)
| IndexError (msg : string)
| WorkerError (msg : string). (* anything else raised inside a worker process *)

(** A call either returns or raises. *)
Definition result (A : Type) : Type := exn + A.

Definition ret {A} (a : A) : result A := inr a.
Definition raise {A} (e : exn) : result A := inl e.
Definition bind {A B} (m : result A) (k : A -> result B) : result B :=
  match m with inl e => inl e | inr a => k a end.

Notation "'let!' x ':=' m 'in' k" := (bind m (fun x => k))
  (at level 10, x name, m at level 100, k at level 200).

Definition is_ok {A} (m : result A) : bool :=
  match m with inl _ => false | inr _ => true end.

(** Python's [list.sort] and pandas' [sort_values(kind="stable")] are stable
    sorts: what they return is fixed by the order relation and the input
    order alone.  Insertion from the right is the simplest such sort: an
    element goes in front of the first one that is not smaller, so it stays
    ahead of its equals that came after it. *)
Fixpoint insert_sorted {A} (le : A -> A -> bool) (x : A) (l : list A) : list A :=
  match l with
  | [] => [x]
  | y :: rest => if le x y then x :: y :: rest else y :: insert_sorted le x rest
  end.

Definition stable_sort {A} (le : A -> A -> bool) (l : list A) : list A :=
  foldr (insert_sorted le) [] l.

Module DataAnalysis.

(** *** Configuration constants *)
Definition INPUT_XLSX : string := "Data_Base.xlsx".
Definition OUTPUT_REPORT : string := "real_row_counts.md".
Definition HEADER_ROW : Z := 1.

(** *** The workbook as openpyxl presents it (read-only, data-only) *)

(** The value of a cell: [None], text, or some other scalar (number, boolean,
    date/time).  A float is kept as mantissa and binary exponent, a date as a
    timestamp; the scanner only ever compares a value with [None], [""], [" "]. *)
Inductive CellValue :=
| VNone
| VStr (s : string)
| VInt (n : Z)
| VFloat (m e : Z)
| VBool (b : bool)
| VDate (t : Z).

(** [ws.max_row] and [ws.max_column] may be [None] for an unsized sheet;
    [ws.cell(row=r, column=c)] on a read-only sheet answers for every index
    (an empty cell outside the stored extent). *)
Record Worksheet := {
  max_row : option Z;
  max_column : option Z;
  cell : Z -> Z -> CellValue
}.

(** An ordered sequence of named sheets; [wb[sheet]] is the first sheet with
    that title. *)
Definition Workbook := list (string * Worksheet).

Fixpoint getitem (wb : Workbook) (sheet : string) : result Worksheet :=
  match wb with
  | [] => raise (KeyError sheet)
  | (name, ws) :: rest => if String.eqb name sheet then ret ws else getitem rest sheet
  end.

(** [x or 0] for an optional integer. *)
Definition or0 (x : option Z) : Z :=
  match x with None => 0 | Some n => n end.

(** *** The scanner *)

(** [v in (None, "", " ")]. *)
Definition in_blanks (v : CellValue) : bool :=
  match v with
  | VNone => true
  | VStr s => String.eqb s "" || String.eqb s " "
  | _ => false
  end.

(** [[ws.cell(row=r, column=c).value for c in range(1, max_col + 1)]]. *)
Definition row_values (ws : Worksheet) (max_col r : Z) : list CellValue :=
  map (fun c => cell ws r c) (py_range 1 (max_col + 1)).

(** [any(v not in (None, "", " ") for v in values)]. *)
Definition row_populated (ws : Worksheet) (max_col r : Z) : bool :=
  existsb (fun v => negb (in_blanks v)) (row_values ws max_col r).

(** The [for r in ...: if ...: last_populated = r; break] loop over the rows
    still to visit; [last_populated] is the value the variable holds on entry. *)
Fixpoint scan_rows (ws : Worksheet) (max_col : Z) (rows : list Z)
    (last_populated : Z) : Z :=
  match rows with
  | [] => last_populated
  | r :: rest =>
      if row_populated ws max_col r then r
      else scan_rows ws max_col rest last_populated
  end.

(** Elapsed wall-clock time as [round(time.time() - started, 3)] leaves it:
    a whole number of milliseconds. *)
Definition millis := N.

Record ScanResult := {
  sheet : string;
  header_row : Z;
  r_max_row : Z;
  last_populated_row : Z;
  real_row_count : Z;
  elapsed_sec : millis
}.

(** The body of [detect_last_populated_row] once the sheet is open. *)
Definition scan_sheet (ws : Worksheet) (sheet : string) (header_row : Z)
    (elapsed : millis) : ScanResult :=
  let max_row := or0 (max_row ws) in
  let max_col := or0 (max_column ws) in
  let last_populated :=
    scan_rows ws max_col (py_range_down max_row header_row) header_row in
  {| sheet := sheet;
     header_row := header_row;
     r_max_row := max_row;
     last_populated_row := last_populated;
     real_row_count := Z.max 0 (last_populated - header_row);
     elapsed_sec := elapsed |}.

(** [detect_last_populated_row(path, sheet, header_row)].  [opened] is what
    [load_workbook(path, read_only=True, data_only=True)] gave this worker,
    [elapsed] what its two clock readings amount to. *)
Definition detect_last_populated_row (opened : result Workbook) (sheet : string)
    (header_row : Z) (elapsed : millis) : result ScanResult :=
  let! wb := opened in
  let! ws := getitem wb sheet in
  ret (scan_sheet ws sheet header_row elapsed).

(** *** The orchestrator *)

(** What one run of the pool does for a sheet: every worker reopens the
    workbook on its own and reads the clock on its own. *)
Record Pool := {
  opened : string -> result Workbook;
  clock : string -> millis
}.

(** [ex.submit(detect_last_populated_row, path, s, HEADER_ROW)], as the
    outcome its future will hold. *)
Definition submit (p : Pool) (s : string) : result ScanResult :=
  detect_last_populated_row (opened p s) s HEADER_ROW (clock p s).

(** The futures of a run, in submission order. *)
Definition futs (p : Pool) (sheets : list string) : list (result ScanResult) :=
  map (submit p) sheets.

(** [for fut in as_completed(futs): results.append(fut.result())]:
    [completed] lists the outcomes in completion order, [results] is the
    list built so far; the first future holding an exception re-raises it. *)
Fixpoint collect (completed : list (result ScanResult))
    (results : list ScanResult) : result (list ScanResult) :=
  match completed with
  | [] => ret results
  | fut :: rest => let! r := fut in collect rest (results ++ [r])
  end.

(** [enumerate(sheets)]. *)
Definition enumerate {A} (l : list A) : list (nat * A) :=
  zip (seq 0 (length l)) l.

(** [{s: i for i, s in enumerate(sheets)}]: a later entry overwrites an
    earlier one with the same name. *)
Definition order_of (sheets : list string) : gmap string nat :=
  fold_left (fun m (e : nat * string) => <[e.2 := e.1]> m) (enumerate sheets) ∅.

(** [order[r["sheet"]]]. *)
Definition sort_key (order : gmap string nat) (r : ScanResult) : result nat :=
  match order !! sheet r with
  | Some i => ret i
  | None => raise (KeyError (sheet r))
  end.

(** All the keys, computed before anything moves (as [list.sort] does). *)
Fixpoint sort_keys (order : gmap string nat) (results : list ScanResult)
    : result (list nat) :=
  match results with
  | [] => ret []
  | r :: rest =>
      let! k := sort_key order r in
      let! ks := sort_keys order rest in
      ret (k :: ks)
  end.

(** The sort orders the decorated list by its keys. *)
Definition sort_keyed {A} (l : list (nat * A)) : list (nat * A) :=
  stable_sort (fun x y => (x.1 <=? y.1)%nat) l.

(** [results.sort(key=lambda r: order[r["sheet"]])]. *)
Definition sort_results (order : gmap string nat) (results : list ScanResult)
    : result (list ScanResult) :=
  let! keys := sort_keys order results in
  ret (map snd (sort_keyed (zip keys results))).

(** [analyze_workbook(path)] after [pd.ExcelFile(path).sheet_names] has
    returned [sheets] and the pool has run; [completed] is the order in which
    [as_completed] hands out the futures. *)
Definition analyze_workbook (sheets : list string)
    (completed : list (result ScanResult)) : result (list ScanResult) :=
  let! results := collect completed [] in
  let order := order_of sheets in
  sort_results order results.

(** *** The report *)

Definition NL : string := String (Ascii.ascii_of_nat 10) "".

Definition digit (d : N) : string := pretty d.

(** What an f-string prints for the float [ms / 1000] rounded to three
    places: the shortest decimal that reads back, at least one decimal. *)
Definition repr_millis (ms : millis) : string :=
  let q := (ms / 1000)%N in
  let r := (ms mod 1000)%N in
  let d1 := (r / 100)%N in
  let d2 := ((r / 10) mod 10)%N in
  let d3 := (r mod 10)%N in
  pretty q +:+ "." +:+
    (if negb (d3 =? 0)%N then digit d1 +:+ digit d2 +:+ digit d3
     else if negb (d2 =? 0)%N then digit d1 +:+ digit d2
     else digit d1).

(** The six lines and the empty line of one sheet's block. *)
Definition block (r : ScanResult) : list string :=
  [ "## Sheet: **" +:+ sheet r +:+ "**";
    "- Header row: **" +:+ pretty (header_row r) +:+ "**";
    "- Excel max_row: **" +:+ pretty (r_max_row r) +:+ "**";
    "- Last populated row: **" +:+ pretty (last_populated_row r) +:+ "**";
    "- Real row count: **" +:+ pretty (real_row_count r) +:+ "**";
    "- Elapsed: " +:+ repr_millis (elapsed_sec r) +:+ " s";
    "" ].

Definition report_lines (results : list ScanResult) : list string :=
  ("# Real row count analysis: " +:+ INPUT_XLSX +:+ NL) :: flat_map block results.

Definition render (results : list ScanResult) : string :=
  String.concat NL (report_lines results).

(** What a run leaves behind: the files, and what it did in order. *)
Inductive event :=
| EvWrite (path content : string)
| EvPreview (r : ScanResult)
| EvWritten (path : string)
| EvRuntime.

Record State := {
  files : gmap string string;
  trace : list event
}.

Definition emit (evs : list event) (st : State) : State :=
  {| files := files st; trace := trace st ++ evs |}.

(** [write_report(results, outfile)]: the file is replaced. *)
Definition write_report (results : list ScanResult) (outfile : string)
    (st : State) : State * string :=
  let content := render results in
  ({| files := <[outfile := content]> (files st);
      trace := trace st ++ [EvWrite outfile content] |}, outfile).

(** The [__main__] block: [try: ... finally: log the runtime]. *)
Definition main (sheets : list string) (completed : list (result ScanResult))
    (st : State) : State * result unit :=
  let body :=
    match analyze_workbook sheets completed with
    | inl e => (st, inl e)
    | inr results =>
        let (st1, path) := write_report results OUTPUT_REPORT st in
        (emit (map EvPreview results ++ [EvWritten path]) st1, inr tt)
    end in
  (emit [EvRuntime] body.1, body.2).

(** The report was written during a run that left trace [tr]. *)
Definition report_written (tr : list event) : Prop :=
  exists content, EvWrite OUTPUT_REPORT content ∈ tr.

(** *** Vocabulary of the properties *)

(** The sort key of a result, [0] standing in for a missing one. *)
Definition key_of (order : gmap string nat) (r : ScanResult) : nat :=
  default 0%nat (order !! sheet r).

(** No row of the sheet strictly above [lo] and up to [hi] counts as
    populated for the scanner. *)
Definition rows_unpopulated (ws : Worksheet) (lo hi : Z) : Prop :=
  forall r, lo < r <= hi -> row_populated ws (or0 (max_column ws)) r = false.

(** White space, as the text of the specification understands a blank cell:
    space, tab, line feed, carriage return, vertical tab, form feed. *)
Definition is_whitespace (a : Ascii.ascii) : bool :=
  let n := Ascii.nat_of_ascii a in
  ((n =? 32) || (9 <=? n) && (n <=? 13))%nat.

Fixpoint all_whitespace (s : string) : bool :=
  match s with
  | EmptyString => true
  | String a rest => is_whitespace a && all_whitespace rest
  end.

(** The specification's blank cell: empty, or text made of white space only. *)
Definition spec_blank (v : CellValue) : bool :=
  match v with
  | VNone => true
  | VStr s => all_whitespace s
  | _ => false
  end.

(** The specification's populated row: some cell of the column range is not
    blank. *)
Definition spec_row_populated (ws : Worksheet) (max_col r : Z) : bool :=
  existsb (fun v => negb (spec_blank v)) (row_values ws max_col r).

(** *** Sample sheets *)

(** A sheet of three columns whose first [filled] rows hold text in the
    first column, reported with [reported] rows. *)
Definition sheet_filled (reported filled : Z) : Worksheet :=
  {| max_row := Some reported;
     max_column := Some 3;
     cell := fun r c =>
       if (1 <=? r) && (r <=? filled) && (c =? 1) then VStr "x" else VNone |}.

(** The scenario of the specification: "A" reports 100 rows, the last 10
    blank; "B" reports 5 rows, all populated. *)
Definition sheet_A : Worksheet := sheet_filled 100 90.
Definition sheet_B : Worksheet := sheet_filled 5 5.
Definition workbook_AB : Workbook := [("A", sheet_A); ("B", sheet_B)].

(** A sheet with a header and one further row whose only cell holds two
    spaces. *)
Definition sheet_two_spaces : Worksheet :=
  {| max_row := Some 2;
     max_column := Some 1;
     cell := fun r c =>
       if (r =? 1) && (c =? 1) then VStr "name"
       else if (r =? 2) && (c =? 1) then VStr "  "
       else VNone |}.

(** A sheet whose only text sits in row 2, reported with 5 rows. *)
Definition sheet_title_only : Worksheet :=
  {| max_row := Some 5;
     max_column := Some 1;
     cell := fun r c => if (r =? 2) && (c =? 1) then VStr "title" else VNone |}.

(** A sheet without any content. *)
Definition sheet_empty : Worksheet :=
  {| max_row := None; max_column := None; cell := fun _ _ => VNone |}.

(** A pool in which every worker opens [wb] and takes [ms] milliseconds. *)
Definition steady_pool (wb : Workbook) (ms : millis) : Pool :=
  {| opened := fun _ => ret wb; clock := fun _ => ms |}.

(** A pool in which the worker of sheet [bad] cannot open the workbook. *)
Definition faulty_pool (wb : Workbook) (bad : string) : Pool :=
  {| opened := fun s =>
       if String.eqb s bad then raise (IOError "cannot open") else ret wb;
     clock := fun _ => 0%N |}.

(** A run of the script on a file system: the trace starts empty. *)
Definition start (fs : gmap string string) : State := {| files := fs; trace := [] |}.

Definition run (sheets : list string) (completed : list (result ScanResult))
    (fs : gmap string string) : State * result unit :=
  main sheets completed (start fs).

(** Sheet "B" with another header row and with text to the right of the
    three reported columns. *)
Definition sheet_B_variant : Worksheet :=
  {| max_row := Some 5;
     max_column := Some 3;
     cell := fun r c =>
       if (r <=? 1) || (4 <=? c) then VStr "other" else cell sheet_B r c |}.

(** Ten reported rows of text, but no reported column. *)
Definition sheet_no_columns : Worksheet :=
  {| max_row := Some 10; max_column := None; cell := fun _ _ => VStr "x" |}.

(** A sheet whose last row holds nothing but the number 0. *)
Definition sheet_zero_total : Worksheet :=
  {| max_row := Some 4;
     max_column := Some 2;
     cell := fun r c => if (r =? 4) && (c =? 2) then VInt 0 else VNone |}.

End DataAnalysis.

Module XlsxToParquet.

(** *** Python text *)

(** A [str] is a sequence of Unicode code points. *)
Definition pystr := list N.

(** An ASCII literal of the script. *)
Definition lit (s : string) : pystr :=
  map Ascii.N_of_ascii (String.list_ascii_of_string s).

Definition SP : N := 32.
Definition TAB : N := 9.
Definition LF : N := 10.

(** [str.isspace] on one code point, which is also what [\s] matches in a
    [str] pattern: the characters of bidirectional type WS, B or S and of
    category Zs. *)
Definition isspace (c : N) : bool :=
  ((9 <=? c) && (c <=? 13) || (28 <=? c) && (c <=? 32)
   || (c =? 133) || (c =? 160) || (c =? 5760)
   || (8192 <=? c) && (c <=? 8202)
   || (c =? 8232) || (c =? 8233) || (c =? 8239) || (c =? 8287)
   || (c =? 12288))%N.

Fixpoint lstrip (s : pystr) : pystr :=
  match s with
  | [] => []
  | c :: rest => if isspace c then lstrip rest else s
  end.

Definition rstrip (s : pystr) : pystr := rev (lstrip (rev s)).

(** [s.strip()]. *)
Definition strip (s : pystr) : pystr := rstrip (lstrip s).

(** [s.replace(old, new)] for one-character [old] and [new]. *)
Definition replace (old new : N) (s : pystr) : pystr :=
  map (fun c => if (c =? old)%N then new else c) s.

(** [re.sub(r"\s+", " ", s)], left to right: [in_match] says that the
    previous character was white space, whose run has already been replaced
    by its one space. *)
Fixpoint re_sub_from (in_match : bool) (s : pystr) : pystr :=
  match s with
  | [] => []
  | c :: rest =>
      if isspace c then
        (if in_match then re_sub_from true rest else SP :: re_sub_from true rest)
      else c :: re_sub_from false rest
  end.

Definition re_sub_spaces (s : pystr) : pystr := re_sub_from false s.

(** A scalar as pandas hands it to [normalize_cell]. *)
Inductive pyval :=
| PNone
| PNaN
| PNA
| PStr (s : pystr)
| PInt (n : Z)
| PBool (b : bool)
| PObj (text : pystr).   (* any other scalar that is not missing, by its [str] *)

(** [pd.isna(x)] on a scalar. *)
Definition isna (x : pyval) : bool :=
  match x with
  | PNone | PNaN | PNA => true
  | _ => false
  end.

(** [str(x)]. *)
Definition str (x : pyval) : pystr :=
  match x with
  | PNone => lit "None"
  | PNaN => lit "nan"
  | PNA => lit "<NA>"
  | PStr s => s
  | PInt n => lit (pretty n)
  | PBool true => lit "True"
  | PBool false => lit "False"
  | PObj text => text
  end.

Definition normalize_cell (x : pyval) : pystr :=
  if isna x then []
  else
    let s := replace TAB SP (replace LF SP (strip (str x))) in
    re_sub_spaces s.

(** *** Vocabulary of the properties *)

(** No white space at either end. *)
Definition trimmed (s : pystr) : Prop :=
  (forall c, head s = Some c -> isspace c = false)
  /\ (forall c, last s = Some c -> isspace c = false).

(** Every white-space character is a space and no two of them are adjacent;
    [prev_ws] says that the character before [s] was white space. *)
Fixpoint single_spaced (prev_ws : bool) (s : pystr) : bool :=
  match s with
  | [] => true
  | c :: rest =>
      if isspace c then (c =? SP)%N && negb prev_ws && single_spaced true rest
      else single_spaced false rest
  end.

(** A character that is not white space. *)
Definition visible (c : N) : bool := negb (isspace c).

(** *** Frames *)

(** A sheet as [pd.read_excel(..., dtype=str)] returns it: the column labels
    and the rows, every row as long as the labels.  Columns are reached by
    position. *)
Record DataFrame := {
  columns : list pystr;
  rows : list (list pyval)
}.

(** The value of a row in the column at position [i]. *)
Definition at_col (i : nat) (row : list pyval) : pyval := nth i row PNaN.

(** A row of the frame [tidy_letter_sheet] builds. *)
Record TidyRow := {
  level1_code : pystr;
  level1_name : option pystr;
  level2_code : pystr;
  level2_name : pystr;
  comments : option pystr
}.

(** A row of the dictionary [build_dictionary] returns. *)
Record Entry := {
  hepa_id : Z;
  tidy : TidyRow;
  level : Z;
  code : pystr;
  name : pystr;
  path : pystr
}.

(** Lexicographic comparison of two [str] by code point. *)
Fixpoint str_compare (a b : pystr) : comparison :=
  match a, b with
  | [], [] => Eq
  | [], _ :: _ => Lt
  | _ :: _, [] => Gt
  | x :: a', y :: b' =>
      match (x ?= y)%N with
      | Eq => str_compare a' b'
      | c => c
      end
  end.

(** The order of [sort_values(["level1_code", "level2_code"])]. *)
Definition key_le (x y : TidyRow) : bool :=
  match str_compare (level1_code x) (level1_code y) with
  | Lt => true
  | Gt => false
  | Eq =>
      match str_compare (level2_code x) (level2_code y) with
      | Gt => false
      | _ => true
      end
  end.

(** [" | ".join(xs)]. *)
Fixpoint join (sep : pystr) (xs : list pystr) : pystr :=
  match xs with
  | [] => []
  | [x] => x
  | x :: rest => x ++ sep ++ join sep rest
  end.

(** [re.match(parent + "[A-Z]{1,3}", code)]: the pattern is anchored at the
    start only, and one upper-case letter after the parent letter is enough. *)
Definition code_matches (parent : N) (code : pystr) : bool :=
  match code with
  | p :: c :: _ => ((p =? parent) && (65 <=? c) && (c <=? 90))%N
  | _ => false
  end.

Section Flatten.

(** [str.isalpha] on one code point (the Unicode letter categories). *)
Variable isalpha : N -> bool.

(** [len(s) == 1 and s.isalpha()], with the letter when it holds. *)
Definition single_letter (s : pystr) : option N :=
  match s with
  | [c] => if isalpha c then Some c else None
  | _ => None
  end.

(** [extract_level1_map(df_l1)]. *)
Definition extract_level1_map (df_l1 : DataFrame) : result (gmap pystr pystr) :=
  match columns df_l1 with
  | _ :: _ :: _ =>
      ret (fold_left
             (fun (l1_map : gmap pystr pystr) row =>
                let code := normalize_cell (at_col 0 row) in
                let name := normalize_cell (at_col 1 row) in
                match single_letter code with
                | Some _ => <[code := name]> l1_map
                | None => l1_map
                end)
             (rows df_l1) ∅)
  | _ => raise (IndexError "index out of bounds")
  end.

(** The merged comment of a normalised row: the non-empty cells after the
    first two, joined; [NA] when nothing is left or the sheet has no comment
    column. *)
Definition merge_comments (has_comments : bool) (row : list pystr) : option pystr :=
  if has_comments then
    match join (lit " | ") (filter (fun x => x <> []) (drop 2 row)) with
    | [] => None
    | c => Some c
    end
  else None.

(** [tidy_letter_sheet(df, sheet_name, l1_map)]; [None] is the frame without
    columns returned for a sheet name that is not a single letter. *)
Definition tidy_letter_sheet (df : DataFrame) (sheet_name : pystr)
    (l1_map : gmap pystr pystr) : result (option (list TidyRow)) :=
  let parent := strip sheet_name in
  match single_letter parent with
  | None => ret None
  | Some letter =>
      match columns df with
      | _ :: _ :: comment_cols =>
          let normalized := map (map normalize_cell) (rows df) in
          let kept :=
            filter (fun row => code_matches letter (nth 0 row []) = true) normalized in
          let has_comments := existsb (fun c => negb (bool_decide (c = []))) comment_cols in
          ret (Some (map (fun row =>
                 {| level1_code := parent;
                    level1_name := l1_map !! parent;
                    level2_code := nth 0 row [];
                    level2_name := nth 1 row [];
                    comments := merge_comments has_comments row |}) kept))
      | _ => raise (IndexError "index out of bounds")
      end
  end.

(** The loop over [sheets.items()] that fills [pieces]. *)
Fixpoint letter_pieces (sheets : list (pystr * DataFrame))
    (l1_map : gmap pystr pystr) : result (list (option (list TidyRow))) :=
  match sheets with
  | [] => ret []
  | (name, df) :: rest =>
      if bool_decide (name = lit "Level 1") then letter_pieces rest l1_map
      else
        match single_letter name with
        | Some _ =>
            let! piece := tidy_letter_sheet df name l1_map in
            let! pieces := letter_pieces rest l1_map in
            ret (piece :: pieces)
        | None => letter_pieces rest l1_map
        end
  end.

(** [pd.concat(pieces, ignore_index=True)] followed by the first use of a
    column: no piece at all is an error, and so is a result without columns. *)
Definition concat (pieces : list (option (list TidyRow))) : result (list TidyRow) :=
  match pieces with
  | [] => raise (ValueError "No objects to concatenate")
  | _ =>
      if forallb (fun p : option (list TidyRow) =>
                    match p with None => true | Some _ => false end) pieces
      then raise (KeyError "level2_code")
      else ret (flat_map (fun p => default [] p) pieces)
  end.

(** The [path] column of a row. *)
Definition path_of (r : TidyRow) : pystr :=
  re_sub_spaces
    (level1_code r ++ lit " " ++ strip (default [] (level1_name r))
     ++ lit " > " ++ level2_code r ++ lit " " ++ level2_name r).

(** [sort_values(["level1_code", "level2_code"], kind="stable")]. *)
Definition sort_values (df_all : list TidyRow) : list TidyRow :=
  stable_sort key_le df_all.

(** [reset_index(drop=True)] and [insert(0, "hepa_id", index + 1)]. *)
Definition insert_hepa_id (df_all : list TidyRow) : list Entry :=
  imap (fun i r =>
          {| hepa_id := Z.of_nat i + 1;
             tidy := r;
             level := 2;
             code := level2_code r;
             name := level2_name r;
             path := path_of r |}) df_all.

(** The frame of all level-2 rows as it stands before it is sorted. *)
Definition collect_rows (sheets : list (pystr * DataFrame)) : result (list TidyRow) :=
  match list_find (fun e : pystr * DataFrame => e.1 = lit "Level 1") sheets with
  | None => raise (ValueError "No 'Level 1' sheet found in the Excel file.")
  | Some (_, (_, l1_sheet)) =>
      let! l1_map := extract_level1_map l1_sheet in
      let! pieces := letter_pieces sheets l1_map in
      concat pieces
  end.

(** [build_dictionary(xlsx_path, output_path)] on the sheets read from the
    workbook; the frame it returns is also the one it writes. *)
Definition build_dictionary (sheets : list (pystr * DataFrame)) : result (list Entry) :=
  let! df_all := collect_rows sheets in
  ret (insert_hepa_id (sort_values df_all)).

End Flatten.

(** *** Vocabulary of the properties *)

(** Two rows carry the same sort key. *)
Definition same_key (z y : TidyRow) : bool := key_le z y && key_le y z.

(** *** A sample workbook *)

(** The letters of ASCII, standing in for [str.isalpha] in the samples. *)
Definition ascii_letter (c : N) : bool :=
  ((65 <=? c) && (c <=? 90) || (97 <=? c) && (c <=? 122))%N.

Definition text (s : string) : pyval := PStr (lit s).

(** A "Level 1" sheet naming the letter E, and the sheet "E" with three code
    rows out of order, a comment column and a row that is not a code. *)
Definition sample_sheets : list (pystr * DataFrame) :=
  [ (lit "Level 1",
     {| columns := [lit "Code"; lit "Name"];
        rows := [[text "E"; text " Energy "]; [text "Total"; PNaN]] |});
    (lit "E",
     {| columns := [lit "Code"; lit "Description"; lit "Unnamed: 2"];
        rows := [[text "EB"; text "Boilers"; PNaN];
                 [text "EA"; text "Heat   pumps"; text "see note"];
                 [text "notes"; PNaN; PNaN];
                 [text "EAB"; text "Air source"; PNaN]] |}) ].

Definition sample_rows : list TidyRow :=
  [ {| level1_code := lit "E"; level1_name := Some (lit "Energy");
       level2_code := lit "EB"; level2_name := lit "Boilers"; comments := None |};
    {| level1_code := lit "E"; level1_name := Some (lit "Energy");
       level2_code := lit "EA"; level2_name := lit "Heat pumps";
       comments := Some (lit "see note") |};
    {| level1_code := lit "E"; level1_name := Some (lit "Energy");
       level2_code := lit "EAB"; level2_name := lit "Air source"; comments := None |} ].

(** *** The pattern of the mask, read literally *)

(** The class [[A-Z]]. *)
Definition is_upper (c : N) : bool := ((65 <=? c) && (c <=? 90))%N.

(** The greedy repetition [[A-Z]{0,n}] at the start of [s]: how many
    characters it takes. *)
Fixpoint upper_run (n : nat) (s : pystr) : nat :=
  match n, s with
  | S n', c :: rest => if is_upper c then S (upper_run n' rest) else 0%nat
  | _, _ => 0%nat
  end.

(** [re.match(parent + "[A-Z]{1,3}", code)]: where the match ends, when
    there is one. *)
Definition re_match_code (parent : N) (code : pystr) : option nat :=
  match code with
  | p :: rest =>
      if (p =? parent)%N then
        let k := upper_run 3 rest in
        if (1 <=? k)%nat then Some (S k) else None
      else None
  | [] => None
  end.

(** *** Further samples *)

(** A "Level 1" sheet that names the letter E twice. *)
Definition sample_level1 : DataFrame :=
  {| columns := [lit "Code"; lit "Name"];
     rows := [[text "E"; text "Old name"]; [text "E"; text " Energy "];
              [text "Total"; PNaN]] |}.

(** The sheet "E" of the sample workbook. *)
Definition sample_sheet_E : DataFrame :=
  {| columns := [lit "Code"; lit "Description"; lit "Unnamed: 2"];
     rows := [[text "EB"; text "Boilers"; PNaN];
              [text "EA"; text "Heat   pumps"; text "see note"];
              [text "notes"; PNaN; PNaN];
              [text "EAB"; text "Air source"; PNaN]] |}.

End XlsxToParquet.

(** * Properties of the row scanner *)

Module ScannerProofs.
Import DataAnalysis.

Lemma py_range_down_nil (start stop : Z) :
  start <= stop -> py_range_down start stop = [].
Proof.
  intros H. unfold py_range_down.
  replace (Z.to_nat (start - stop)) with 0%nat by lia. reflexivity.
Qed.

Lemma py_range_down_cons (start stop : Z) :
  stop < start ->
  py_range_down start stop = start :: py_range_down (start - 1) stop.
Proof.
  intros H. unfold py_range_down.
  replace (Z.to_nat (start - stop)) with (S (Z.to_nat (start - 1 - stop))) by lia.
  cbn [seq map]. f_equal; [lia|].
  rewrite <- seq_shift, map_map. apply map_ext. intros k. lia.
Qed.

(** The rows the loop visits: every index above the header up to the
    reported last row. *)
Lemma In_py_range_down (start stop r : Z) :
  In r (py_range_down start stop) <-> stop < r <= start.
Proof.
  unfold py_range_down. rewrite in_map_iff. split.
  - intros (k & <- & Hk). apply in_seq in Hk. lia.
  - intros H. exists (Z.to_nat (start - r)). split; [lia|].
    apply in_seq. lia.
Qed.

(** The loop, characterised: its result is the header row or a populated row
    above it, and nothing between the result and the start is populated. *)
Lemma scan_rows_spec (ws : Worksheet) (mc : Z) (n : nat) :
  forall m h, Z.to_nat (m - h) = n ->
    let L := scan_rows ws mc (py_range_down m h) h in
    h <= L <= Z.max h m
    /\ (forall r, L < r <= m -> row_populated ws mc r = false)
    /\ (h < L -> row_populated ws mc L = true).
Proof.
  induction n as [|n IH]; intros m h Hn L; subst L.
  - rewrite py_range_down_nil by lia. cbn. repeat split; lia.
  - rewrite py_range_down_cons by lia. cbn [scan_rows].
    destruct (row_populated ws mc m) eqn:Hm.
    + repeat split; try lia. done.
    + specialize (IH (m - 1) h ltac:(lia)). cbn zeta in IH.
      destruct IH as (Hb & Hun & Hpop).
      repeat split; try lia; [|exact Hpop].
      intros r Hr. destruct (decide (r = m)) as [->|]; [done|].
      apply Hun. lia.
Qed.

Lemma scan_sheet_spec (ws : Worksheet) (name : string) (h : Z) (e : millis) :
  let r := scan_sheet ws name h e in
  let m := or0 (max_row ws) in
  h <= last_populated_row r <= Z.max h m
  /\ rows_unpopulated ws (last_populated_row r) m
  /\ (h < last_populated_row r ->
      row_populated ws (or0 (max_column ws)) (last_populated_row r) = true).
Proof.
  cbn. exact (scan_rows_spec ws _ _ _ h eq_refl).
Qed.

(** Once the workbook is open and holds the sheet, the scan returns. *)
Lemma detect_returns (wb : Workbook) (name : string) (ws : Worksheet)
    (h : Z) (e : millis) :
  getitem wb name = inr ws ->
  detect_last_populated_row (inr wb) name h e = inr (scan_sheet ws name h e).
Proof. intros H. unfold detect_last_populated_row. cbn. rewrite H. reflexivity. Qed.

(** The fields of a result that are copied from the call. *)
Lemma scan_sheet_fields (ws : Worksheet) (name : string) (h : Z) (e : millis) :
  sheet (scan_sheet ws name h e) = name
  /\ header_row (scan_sheet ws name h e) = h
  /\ r_max_row (scan_sheet ws name h e) = or0 (max_row ws)
  /\ elapsed_sec (scan_sheet ws name h e) = e.
Proof. done. Qed.



(** What the sample sheets hold, row by row. *)
Lemma sheet_filled_populated (reported filled r : Z) :
  row_populated (sheet_filled reported filled) 3 r
  = (1 <=? r) && (r <=? filled).
Proof.
  unfold row_populated, row_values. cbn.
  destruct ((1 <=? r) && (r <=? filled)); reflexivity.
Qed.

Lemma sheet_filled_unpopulated (reported filled : Z) :
  rows_unpopulated (sheet_filled reported filled) filled reported.
Proof.
  intros r Hr. cbn. rewrite sheet_filled_populated.
  apply andb_false_iff. right. lia.
Qed.

(** The scanner's own reading of a populated row: some cell of columns
    [1..max_col] is none of [None], [""], [" "]. *)
Lemma row_populated_iff (ws : Worksheet) (mc r : Z) :
  row_populated ws mc r = true
  <-> exists c, 1 <= c <= mc /\ in_blanks (cell ws r c) = false.
Proof.
  unfold row_populated, row_values. rewrite existsb_exists. split.
  - intros (v & Hin & Hv). apply in_map_iff in Hin as (c & <- & Hc).
    exists c. split; [|by apply negb_true_iff].
    unfold py_range in Hc. apply in_map_iff in Hc as (k & <- & Hk).
    apply in_seq in Hk. lia.
  - intros (c & Hc & Hv). exists (cell ws r c). split; [|by rewrite Hv].
    apply in_map_iff. exists c. split; [done|].
    unfold py_range. apply in_map_iff. exists (Z.to_nat (c - 1)).
    split; [lia|]. apply in_seq. lia.
Qed.

(** Every cell the scanner takes for blank is blank for the specification
    too, so a row populated for the specification is populated for the
    scanner. *)
Lemma in_blanks_spec_blank (v : CellValue) :
  in_blanks v = true -> spec_blank v = true.
Proof.
  destruct v as [|s| | | |]; cbn; try done.
  intros [H|H]%orb_true_iff; apply String.eqb_eq in H; subst; reflexivity.
Qed.

Lemma spec_populated_is_populated (ws : Worksheet) (mc r : Z) :
  spec_row_populated ws mc r = true -> row_populated ws mc r = true.
Proof.
  unfold spec_row_populated, row_populated. rewrite !existsb_exists.
  intros (v & Hin & Hv). exists v. split; [done|].
  apply negb_true_iff. apply negb_true_iff in Hv.
  destruct (in_blanks v) eqn:Hb; [|done].
  apply in_blanks_spec_blank in Hb. congruence.
Qed.

(** C2: the row of [sheet_two_spaces] under the header holds nothing but
    two spaces, so it is not populated as the specification defines it; the
    scanner compares the cell with [None], [""] and [" "] only, takes the row
    for populated and reports it as the last populated row. *)
Theorem C2_whitespace_row_taken_for_populated :
  spec_row_populated sheet_two_spaces 1 2 = false
  /\ row_populated sheet_two_spaces 1 2 = true
  /\ exists r,
       detect_last_populated_row (inr [("S", sheet_two_spaces)]) "S" 1 0%N = inr r
       /\ last_populated_row r = 2
       /\ real_row_count r = 1.
Proof.
  split; [reflexivity|]. split; [reflexivity|].
  eexists. split; [reflexivity|]. split; reflexivity.
Qed.

(** Where the scanner itself finds no populated row below the header, the
    last populated row is the header row and the count is 0; the count is
    always the last populated row minus the header row, floored at zero. *)
Lemma real_row_count_when_unpopulated (wb : Workbook) (name : string)
    (ws : Worksheet) (h : Z) (e : millis) :
  getitem wb name = inr ws ->
  exists r,
    detect_last_populated_row (inr wb) name h e = inr r
    /\ real_row_count r = Z.max 0 (last_populated_row r - header_row r)
    /\ (rows_unpopulated ws h (or0 (max_row ws)) ->
        last_populated_row r = header_row r /\ real_row_count r = 0).
Proof.
  intros Hws. exists (scan_sheet ws name h e).
  split; [by apply detect_returns|]. split; [reflexivity|].
  intros Hempty.
  destruct (scan_sheet_spec ws name h e) as (Hb & _ & Hpop).
  assert (last_populated_row (scan_sheet ws name h e) = h) as Heq.
  { destruct (decide (h < last_populated_row (scan_sheet ws name h e))) as [Hlt|]; [|lia].
    specialize (Hpop Hlt). rewrite Hempty in Hpop; [done|]. cbn in *. lia. }
  split; [exact Heq|].
  change (Z.max 0 (last_populated_row (scan_sheet ws name h e) - h) = 0).
  rewrite Heq. lia.
Qed.

(** A sheet of 50 reported rows with text in the header row only. *)
Lemma real_row_count_when_unpopulated_sample :
  exists r,
    detect_last_populated_row (inr [("E", sheet_filled 50 1)]) "E" 1 0%N = inr r
    /\ real_row_count r = Z.max 0 (last_populated_row r - header_row r)
    /\ last_populated_row r = header_row r
    /\ real_row_count r = 0.
Proof.
  destruct (real_row_count_when_unpopulated
              [("E", sheet_filled 50 1)] "E" (sheet_filled 50 1) 1 0%N)
    as (r & Hret & Hcount & Hempty); [reflexivity|].
  exists r. split; [exact Hret|]. split; [exact Hcount|].
  apply Hempty. exact (sheet_filled_unpopulated 50 1).
Defined.

(** C3: [sheet_two_spaces] has no populated row below its header row, as
    the specification defines a populated row (the one row below the header
    holds two spaces and nothing else), yet scanned with header row 1 it
    gets row 2 as its last populated row and a real row count of 1, not the
    header row and 0.  The count is the last populated row minus the header
    row, floored at zero, as stated. *)
Theorem C3_whitespace_sheet_not_counted_empty :
  (forall r, 1 < r <= or0 (max_row sheet_two_spaces) ->
             spec_row_populated sheet_two_spaces
               (or0 (max_column sheet_two_spaces)) r = false)
  /\ exists res,
       detect_last_populated_row (inr [("S", sheet_two_spaces)]) "S" 1 0%N = inr res
       /\ header_row res = 1
       /\ last_populated_row res = 2
       /\ real_row_count res = 1
       /\ real_row_count res = Z.max 0 (last_populated_row res - header_row res).
Proof.
  split.
  - intros r Hr. cbn in Hr. assert (r = 2) as -> by lia. reflexivity.
  - eexists. split; [reflexivity|]. repeat split; reflexivity.
Qed.

(** C4, as stated, fails: in [sheet_title_only] scanned with header row 3
    the last 3 of the 5 reported rows are empty and row 5 - 3 = 2 holds
    text, so it is populated for the specification and for the scanner
    alike, yet the scan stops at the header row: it reports row 3 and the
    count 0, not row 2 and the count 2 - 3. *)
Lemma C4_counterexample :
  0 <= 3
  /\ (forall r c, 5 - 3 < r <= 5 -> cell sheet_title_only r c = VNone)
  /\ rows_unpopulated sheet_title_only (5 - 3) 5
  /\ spec_row_populated sheet_title_only 1 (5 - 3) = true
  /\ row_populated sheet_title_only 1 (5 - 3) = true
  /\ last_populated_row (scan_sheet sheet_title_only "S" 3 0%N) <> 5 - 3
  /\ real_row_count (scan_sheet sheet_title_only "S" 3 0%N) <> (5 - 3) - 3.
Proof.
  assert (forall r, 5 - 3 < r <= 5 -> r = 3 \/ r = 4 \/ r = 5) as Hcases
    by (intros r Hr; lia).
  split; [lia|]. split; [|split].
  - intros r c Hr. destruct (Hcases r Hr) as [->|[->| ->]]; reflexivity.
  - intros r Hr. destruct (Hcases r Hr) as [->|[->| ->]]; reflexivity.
  - split; [reflexivity|]. split; [reflexivity|]. split; vm_compute; discriminate.
Qed.

(** The scan in the scanner's own terms: when the last [n] reported rows
    do not count as populated, row [max_row - n] does and lies at or below
    the header row's index, the scan returns [max_row - n]. *)
Lemma scan_of_trailing_unpopulated_rows (wb : Workbook) (name : string)
    (ws : Worksheet) (h : Z) (e : millis) (n : Z) :
  getitem wb name = inr ws ->
  0 <= n ->
  h <= or0 (max_row ws) - n ->
  rows_unpopulated ws (or0 (max_row ws) - n) (or0 (max_row ws)) ->
  row_populated ws (or0 (max_column ws)) (or0 (max_row ws) - n) = true ->
  exists r,
    detect_last_populated_row (inr wb) name h e = inr r
    /\ last_populated_row r = r_max_row r - n
    /\ real_row_count r = (r_max_row r - n) - h.
Proof.
  intros Hws Hn Hh Hblank Hpop. exists (scan_sheet ws name h e).
  split; [by apply detect_returns|].
  destruct (scan_sheet_spec ws name h e) as (Hb & Hun & Hfound).
  set (m := or0 (max_row ws)) in *.
  set (L := last_populated_row (scan_sheet ws name h e)) in *.
  assert (L = m - n) as HL.
  { destruct (Z.lt_trichotomy L (m - n)) as [Hlt|[Heq|Hgt]]; [|done|].
    - rewrite Hun in Hpop; [done|lia].
    - rewrite Hblank in Hfound; [|lia]. assert (h < L) as Hl by lia.
      specialize (Hfound Hl). done. }
  split; [exact HL|].
  change (Z.max 0 (L - h) = m - n - h). lia.
Qed.

(** C4, amended: when every cell of the last [n] reported rows, in the
    reported columns, is [None], the empty text or a single space, and row
    [max_row - n] is populated as the specification defines it (some cell
    of its reported columns holds a value other than empty, blank or white
    space) and is not above the header row, the scan returns [max_row - n]
    as the last populated row and [(max_row - n) - header_row] as the real
    row count; with [n = 0] the last populated row is the reported last
    row. *)
Theorem C4_trailing_blank_rows (wb : Workbook) (name : string) (ws : Worksheet)
    (h : Z) (e : millis) (n : Z) :
  getitem wb name = inr ws ->
  0 <= n ->
  h <= or0 (max_row ws) - n ->
  (forall r c, or0 (max_row ws) - n < r <= or0 (max_row ws) ->
               1 <= c <= or0 (max_column ws) ->
               in_blanks (cell ws r c) = true) ->
  spec_row_populated ws (or0 (max_column ws)) (or0 (max_row ws) - n) = true ->
  exists r,
    detect_last_populated_row (inr wb) name h e = inr r
    /\ last_populated_row r = r_max_row r - n
    /\ real_row_count r = (r_max_row r - n) - h.
Proof.
  intros Hws Hn Hh Hblank Hpop.
  apply (scan_of_trailing_unpopulated_rows wb name ws h e n Hws Hn Hh).
  - intros r Hr.
    destruct (row_populated ws (or0 (max_column ws)) r) eqn:Hp; [|done].
    apply row_populated_iff in Hp as (c & Hc & Hv).
    by rewrite (Hblank r c Hr Hc) in Hv.
  - by apply spec_populated_is_populated.
Qed.

Lemma C4_trailing_blank_rows_witness :
  exists r,
    detect_last_populated_row (inr workbook_AB) "A" 1 0%N = inr r
    /\ last_populated_row r = r_max_row r - 10
    /\ real_row_count r = (r_max_row r - 10) - 1.
Proof.
  apply (C4_trailing_blank_rows workbook_AB "A" sheet_A 1 0%N 10).
  - reflexivity.
  - lia.
  - cbn. lia.
  - intros r c Hr Hc. cbn in Hr. cbn.
    replace (r <=? 90) with false by (symmetry; apply Z.leb_gt; lia).
    by rewrite andb_false_r.
  - reflexivity.
Defined.

(** C8: the last populated row of a result lies between the header row and
    the larger of the header row and the reported last row, so the real row
    count is exactly their difference and the floor at zero never decides. *)
Theorem C8_last_row_bounds (wb : Workbook) (name : string) (ws : Worksheet)
    (h : Z) (e : millis) :
  getitem wb name = inr ws ->
  exists r,
    detect_last_populated_row (inr wb) name h e = inr r
    /\ header_row r <= last_populated_row r <= Z.max (header_row r) (r_max_row r)
    /\ real_row_count r = last_populated_row r - header_row r.
Proof.
  intros Hws. exists (scan_sheet ws name h e).
  split; [by apply detect_returns|].
  destruct (scan_sheet_spec ws name h e) as (Hb & _ & _).
  split; [exact Hb|].
  change (Z.max 0 (last_populated_row (scan_sheet ws name h e) - h)
          = last_populated_row (scan_sheet ws name h e) - h).
  lia.
Qed.

Lemma C8_last_row_bounds_witness :
  exists r,
    detect_last_populated_row (inr workbook_AB) "B" 1 7%N = inr r
    /\ header_row r <= last_populated_row r <= Z.max (header_row r) (r_max_row r)
    /\ real_row_count r = last_populated_row r - header_row r.
Proof. apply (C8_last_row_bounds workbook_AB "B" sheet_B 1 7%N). reflexivity. Defined.

(** The scenario of the specification: sheet "A" has 89 real rows, sheet
    "B" has 4. *)
Example scenario_counts :
  real_row_count (scan_sheet sheet_A "A" HEADER_ROW 0%N) = 89
  /\ real_row_count (scan_sheet sheet_B "B" HEADER_ROW 0%N) = 4.
Proof. split; reflexivity. Qed.

(** An unsized sheet ([max_row] and [max_column] are [None]) is scanned as
    a sheet of no rows: the loop body never runs. *)
Example unsized_sheet_scan :
  detect_last_populated_row (inr [("E", sheet_empty)]) "E" 1 0%N
  = inr {| sheet := "E"; header_row := 1; r_max_row := 0;
           last_populated_row := 1; real_row_count := 0; elapsed_sec := 0%N |}.
Proof. reflexivity. Qed.

End ScannerProofs.

(** * Facts about the stable sort *)

Section StableSort.
Context {A : Type} (le : A -> A -> bool).
Hypothesis le_total : forall x y, le x y = true \/ le y x = true.
Hypothesis le_trans : forall x y z, le x y = true -> le y z = true -> le x z = true.

Lemma insert_sorted_perm (x : A) (l : list A) :
  Permutation (insert_sorted le x l) (x :: l).
Proof.
  induction l as [|y l IH]; cbn; [done|].
  destruct (le x y); [done|].
  rewrite IH. apply perm_swap.
Qed.

Lemma stable_sort_perm (l : list A) : Permutation (stable_sort le l) l.
Proof.
  induction l as [|x l IH]; cbn; [done|].
  fold (stable_sort le l). rewrite insert_sorted_perm. by constructor.
Qed.

Lemma stable_sort_length (l : list A) : length (stable_sort le l) = length l.
Proof. apply Permutation_length, stable_sort_perm. Qed.

Lemma insert_sorted_sorted (x : A) (l : list A) :
  StronglySorted (fun a b => le a b = true) l ->
  StronglySorted (fun a b => le a b = true) (insert_sorted le x l).
Proof.
  induction 1 as [|y l Hs IH Hy]; cbn.
  - repeat constructor.
  - destruct (le x y) eqn:Hxy.
    + constructor; [by constructor|].
      constructor; [done|].
      eapply Forall_impl; [exact Hy|]. intros z Hz. by eapply le_trans.
    + constructor; [exact IH|].
      assert (le y x = true) as Hyx by (destruct (le_total x y); congruence).
      eapply Permutation_Forall; [symmetry; apply insert_sorted_perm|].
      by constructor.
Qed.

Lemma stable_sort_sorted (l : list A) :
  StronglySorted (fun a b => le a b = true) (stable_sort le l).
Proof.
  induction l as [|x l IH]; cbn; [constructor|].
  by apply insert_sorted_sorted.
Qed.

(** Stability: the elements that are equivalent to [z] come out in the
    order in which they went in. *)
Lemma insert_sorted_filter (z x : A) (l : list A) :
  List.filter (fun y => le z y && le y z) (insert_sorted le x l)
  = List.filter (fun y => le z y && le y z) (x :: l).
Proof.
  induction l as [|y l IH]; [done|].
  cbn [insert_sorted]. destruct (le x y) eqn:Hxy; [done|].
  cbn [List.filter] in *. rewrite IH.
  destruct (le z x && le x z) eqn:Hx; [|done].
  destruct (le z y && le y z) eqn:Hy; [|done].
  apply andb_true_iff in Hx as [Hzx Hxz]. apply andb_true_iff in Hy as [Hzy Hyz].
  rewrite (le_trans x z y Hxz Hzy) in Hxy. done.
Qed.

Lemma stable_sort_stable (z : A) (l : list A) :
  List.filter (fun y => le z y && le y z) (stable_sort le l)
  = List.filter (fun y => le z y && le y z) l.
Proof.
  induction l as [|x l IH]; [done|].
  cbn [stable_sort foldr]. fold (stable_sort le l).
  rewrite insert_sorted_filter. cbn [List.filter]. by rewrite IH.
Qed.

(** A sorted list is fixed by what it contains and by the order of its
    equivalent elements: every stable sort returns what [stable_sort]
    returns. *)
Lemma sorted_stable_unique (l1 l2 : list A) :
  StronglySorted (fun a b => le a b = true) l1 ->
  StronglySorted (fun a b => le a b = true) l2 ->
  Permutation l1 l2 ->
  (forall z, List.filter (fun y => le z y && le y z) l1
             = List.filter (fun y => le z y && le y z) l2) ->
  l1 = l2.
Proof.
  assert (forall x, le x x = true) as le_refl.
  { intros x. by destruct (le_total x x). }
  intros Hs1. revert l2.
  induction Hs1 as [|x1 l1 Hs1 IH Hx1]; intros l2 Hs2 Hperm Hfilter.
  - by apply Permutation_nil in Hperm.
  - destruct Hs2 as [|x2 l2 Hs2 Hx2].
    { symmetry in Hperm. by apply Permutation_nil in Hperm. }
    assert (le x1 x2 = true) as H12.
    { assert (x2 ∈ x1 :: l1) as Hin by (rewrite Hperm; by left).
      apply elem_of_cons in Hin as [->|Hin]; [done|].
      rewrite Forall_forall in Hx1. by apply Hx1. }
    assert (le x2 x1 = true) as H21.
    { assert (x1 ∈ x2 :: l2) as Hin by (rewrite <- Hperm; by left).
      apply elem_of_cons in Hin as [->|Hin]; [done|].
      rewrite Forall_forall in Hx2. by apply Hx2. }
    pose proof (Hfilter x1) as Hf. cbn [List.filter] in Hf.
    rewrite !le_refl, H12, H21 in Hf. cbn in Hf.
    injection Hf as <- _.
    f_equal. apply IH; [done|by eapply Permutation_cons_inv|].
    intros z. specialize (Hfilter z). cbn [List.filter] in Hfilter.
    destruct (le z x1 && le x1 z); [by injection Hfilter|done].
Qed.

Lemma stable_sort_unique (l sorted : list A) :
  StronglySorted (fun a b => le a b = true) sorted ->
  Permutation sorted l ->
  (forall z, List.filter (fun y => le z y && le y z) sorted
             = List.filter (fun y => le z y && le y z) l) ->
  sorted = stable_sort le l.
Proof.
  intros Hs Hperm Hstable. apply sorted_stable_unique; [done| | |].
  - apply stable_sort_sorted.
  - by rewrite stable_sort_perm.
  - intros z. by rewrite stable_sort_stable.
Qed.

End StableSort.

(** * Properties of the orchestrator and of the report *)

Module OrchestratorProofs.
Import DataAnalysis.

(** A result carries the name of the sheet it was submitted for. *)
Lemma submit_sheet (p : Pool) (s : string) (r : ScanResult) :
  submit p s = inr r -> sheet r = s.
Proof.
  unfold submit, detect_last_populated_row.
  destruct (opened p s) as [e|wb]; cbn; [done|].
  destruct (getitem wb s) as [e|ws]; cbn; [done|].
  intros [= <-]. reflexivity.
Qed.

Lemma futs_sheets (p : Pool) (sheets : list string) (rs : list ScanResult) :
  futs p sheets = map inr rs -> map sheet rs = sheets.
Proof.
  unfold futs. revert rs.
  induction sheets as [|s sheets IH]; intros [|r rs]; cbn; try done.
  intros [= Hs Hrest]. f_equal; [by eapply submit_sheet|by apply IH].
Qed.

(** The collecting loop: with every future holding a result the results
    are appended in completion order. *)
Lemma collect_all_ok (rs acc : list ScanResult) :
  collect (map inr rs) acc = inr (acc ++ rs).
Proof.
  revert acc. induction rs as [|r rs IH]; intros acc; cbn.
  - by rewrite app_nil_r.
  - rewrite IH, <- app_assoc. reflexivity.
Qed.

(** The first future that holds an exception ends the loop with it. *)
Lemma collect_first_failure (rs acc : list ScanResult) (e : exn)
    (rest : list (result ScanResult)) :
  collect (map inr rs ++ inl e :: rest) acc = inl e.
Proof.
  revert acc. induction rs as [|r rs IH]; intros acc; cbn; [done|apply IH].
Qed.

(** A completion order either has only results or a first exception. *)
Lemma completed_cases (completed : list (result ScanResult)) :
  (exists rs, completed = map inr rs)
  \/ (exists rs e rest, completed = map inr rs ++ inl e :: rest).
Proof.
  induction completed as [|[e|r] completed IH].
  - left. by exists [].
  - right. by exists [], e, completed.
  - destruct IH as [(rs & ->)|(rs & e & rest & ->)].
    + left. by exists (r :: rs).
    + right. by exists (r :: rs), e, rest.
Qed.

Lemma forallb_is_ok (completed : list (result ScanResult)) :
  forallb is_ok completed = true <-> exists rs, completed = map inr rs.
Proof.
  split.
  - induction completed as [|[e|r] completed IH]; cbn; [by exists []|done|].
    intros (rs & ->)%IH. by exists (r :: rs).
  - intros (rs & ->). induction rs; cbn; done.
Qed.

(** The [order] dictionary: with distinct names every sheet maps to its
    position. *)
Lemma order_fold_lookup (l : list string) :
  forall (k : nat) (m : gmap string nat) (s : string),
    NoDup l ->
    (forall i, l !! i = Some s ->
       fold_left (fun m (e : nat * string) => <[e.2 := e.1]> m)
         (zip (seq k (length l)) l) m !! s = Some (k + i)%nat)
    /\ (s ∉ l ->
       fold_left (fun m (e : nat * string) => <[e.2 := e.1]> m)
         (zip (seq k (length l)) l) m !! s = m !! s).
Proof.
  induction l as [|a l IH]; intros k m s Hnd.
  - split; [done|]. done.
  - apply NoDup_cons in Hnd as [Ha Hnd]. cbn.
    destruct (IH (S k) (<[a:=k]> m) s Hnd) as [Hin Hout]. split.
    + intros [|i] Hi; cbn in Hi.
      * injection Hi as ->. rewrite Hout by done.
        rewrite lookup_insert_eq. f_equal. lia.
      * rewrite (Hin i Hi). f_equal. lia.
    + intros Hs. apply not_elem_of_cons in Hs as [Hne Hs].
      rewrite (Hout Hs). by rewrite lookup_insert_ne.
Qed.

Lemma order_of_lookup (sheets : list string) (i : nat) (s : string) :
  NoDup sheets -> sheets !! i = Some s -> order_of sheets !! s = Some i.
Proof.
  intros Hnd Hi. unfold order_of, enumerate.
  destruct (order_fold_lookup sheets 0 ∅ s Hnd) as [H _]. exact (H i Hi).
Qed.

(** The keys of results that stand in sheet order are 0, 1, 2, ... *)
Lemma sort_keys_in_order (order : gmap string nat) (rs : list ScanResult) (k : nat) :
  (forall i r, rs !! i = Some r -> order !! sheet r = Some (k + i)%nat) ->
  sort_keys order rs = inr (seq k (length rs)).
Proof.
  revert k. induction rs as [|r rs IH]; intros k H; cbn; [done|].
  unfold sort_key. rewrite (H 0%nat r eq_refl), Nat.add_0_r. cbn.
  rewrite (IH (S k)); [done|].
  intros i r' Hi. rewrite (H (S i) r' Hi). f_equal. lia.
Qed.

Lemma sort_keys_defined (order : gmap string nat) (rs : list ScanResult) :
  Forall (fun r => is_Some (order !! sheet r)) rs ->
  sort_keys order rs = inr (map (key_of order) rs).
Proof.
  induction 1 as [|r rs [i Hi] _ IH]; cbn; [done|].
  unfold sort_key, key_of at 1. rewrite Hi, IH. reflexivity.
Qed.

Lemma zip_map_keys {B} (f : B -> nat) (l : list B) :
  zip (map f l) l = map (fun r => (f r, r)) l.
Proof. induction l; cbn; congruence. Qed.

Lemma zip_seq_sorted {B} (l : list B) (k : nat) :
  StronglySorted (fun a b : nat * B => (a.1 <=? b.1)%nat = true)
    (zip (seq k (length l)) l).
Proof.
  revert k. induction l as [|x l IH]; intros k; cbn; constructor; [apply IH|].
  apply Forall_forall. intros [j y] Hin. cbn.
  apply elem_of_zip_l in Hin. apply elem_of_seq in Hin.
  apply Nat.leb_le. lia.
Qed.

Lemma keyed_eq_of_fst {B} (l : list (nat * B)) (a b : nat * B) :
  NoDup (map fst l) -> a ∈ l -> b ∈ l -> a.1 = b.1 -> a = b.
Proof.
  induction l as [|c l IH]; cbn; intros Hnd Ha Hb Heq; [by inv Ha|].
  apply NoDup_cons in Hnd as [Hc Hnd].
  apply elem_of_cons in Ha as [->|Ha]; apply elem_of_cons in Hb as [->|Hb];
    try done.
  - exfalso. apply Hc. rewrite Heq. by apply (list_elem_of_fmap_2 fst) in Hb.
  - exfalso. apply Hc. rewrite <- Heq. by apply (list_elem_of_fmap_2 fst) in Ha.
  - by apply IH.
Qed.

(** Sorting any arrangement of results whose keys are their positions in
    [rs] gives back [rs]. *)
Lemma sort_results_restores (order : gmap string nat) (rs rs' : list ScanResult) :
  (forall i r, rs !! i = Some r -> order !! sheet r = Some i) ->
  Permutation rs' rs ->
  sort_results order rs' = inr rs.
Proof.
  intros Hkeys Hperm. unfold sort_results.
  assert (Forall (fun r => is_Some (order !! sheet r)) rs') as Hdef.
  { rewrite Hperm. apply Forall_forall. intros r Hr.
    apply list_elem_of_lookup in Hr as [i Hi]. rewrite (Hkeys i r Hi). by eexists. }
  rewrite (sort_keys_defined order rs' Hdef). cbn.
  rewrite zip_map_keys.
  assert (map (fun r => (key_of order r, r)) rs = zip (seq 0 (length rs)) rs) as Hrs.
  { rewrite <- zip_map_keys. f_equal.
    pose proof (sort_keys_in_order order rs 0 Hkeys) as H1.
    assert (Forall (fun r => is_Some (order !! sheet r)) rs) as Hdef' by (by rewrite <- Hperm).
    rewrite (sort_keys_defined order rs Hdef') in H1. by injection H1. }
  assert (sort_keyed (map (fun r => (key_of order r, r)) rs')
          = zip (seq 0 (length rs)) rs) as ->.
  { apply (StronglySorted_unique_strong
             (fun a b : nat * ScanResult => (a.1 <=? b.1)%nat = true)).
    - intros a b Ha Hb Hab Hba.
      apply (keyed_eq_of_fst (zip (seq 0 (length rs)) rs)).
      + rewrite fst_zip by (by rewrite length_seq). apply NoDup_seq.
      + unfold sort_keyed in Ha. rewrite stable_sort_perm in Ha.
        rewrite <- Hrs. by rewrite <- Hperm.
      + done.
      + apply Nat.leb_le in Hab. apply Nat.leb_le in Hba. lia.
    - apply stable_sort_sorted.
      + intros x y. rewrite !Nat.leb_le. lia.
      + intros x y z. rewrite !Nat.leb_le. lia.
    - apply zip_seq_sorted.
    - unfold sort_keyed. rewrite stable_sort_perm, <- Hrs. by rewrite Hperm. }
  rewrite snd_zip by (by rewrite length_seq). reflexivity.
Qed.

Lemma order_fold_defined (l : list string) :
  forall (k : nat) (m : gmap string nat) (s : string),
    s ∈ l \/ is_Some (m !! s) ->
    is_Some (fold_left (fun m (e : nat * string) => <[e.2 := e.1]> m)
               (zip (seq k (length l)) l) m !! s).
Proof.
  induction l as [|a l IH]; intros k m s H; cbn.
  - destruct H as [H|H]; [by inv H|done].
  - apply IH. destruct (decide (a = s)) as [->|Hne].
    + right. rewrite lookup_insert_eq. by eexists.
    + destruct H as [H|H].
      * left. by apply elem_of_cons in H as [->|H].
      * right. by rewrite lookup_insert_ne.
Qed.

Lemma order_of_defined (sheets : list string) (s : string) :
  s ∈ sheets -> is_Some (order_of sheets !! s).
Proof. intros H. apply order_fold_defined. by left. Qed.

(** With results for sheets of the workbook only, the sort does not fail and
    rearranges what it was given. *)
Lemma sort_results_defined (sheets : list string) (rs : list ScanResult) :
  Forall (fun r => sheet r ∈ sheets) rs ->
  exists sorted, sort_results (order_of sheets) rs = inr sorted
                 /\ Permutation sorted rs.
Proof.
  intros H. unfold sort_results.
  rewrite sort_keys_defined.
  2:{ eapply Forall_impl; [exact H|]. intros r Hr. by apply order_of_defined. }
  cbn. eexists. split; [reflexivity|].
  rewrite zip_map_keys. unfold sort_keyed.
  rewrite stable_sort_perm, map_map. cbn. by rewrite map_id.
Qed.

Lemma futs_results_sheets (p : Pool) (sheets : list string)
    (completed : list (result ScanResult)) (rs : list ScanResult) :
  Permutation completed (futs p sheets) ->
  completed = map inr rs ->
  Forall (fun r => sheet r ∈ sheets) rs.
Proof.
  intros Hperm ->. apply Forall_forall. intros r Hr.
  assert (inr r ∈ futs p sheets) as Hin.
  { rewrite <- Hperm. by apply (list_elem_of_fmap_2 inr). }
  unfold futs in Hin. apply list_elem_of_fmap in Hin as (s & Hs & Hin).
  symmetry in Hs. apply submit_sheet in Hs. by subst.
Qed.

(** The orchestrator undoes the completion order. *)
Lemma analyze_workbook_restores_order (sheets : list string)
    (rs rs' : list ScanResult) :
  NoDup sheets ->
  map sheet rs = sheets ->
  Permutation rs' rs ->
  analyze_workbook sheets (map inr rs') = inr rs.
Proof.
  intros Hnd Hsheets Hperm.
  unfold analyze_workbook. rewrite collect_all_ok. cbn.
  apply sort_results_restores; [|done].
  intros i r Hi. apply order_of_lookup; [done|].
  rewrite <- Hsheets. change (map sheet rs) with (sheet <$> rs).
  by rewrite list_lookup_fmap, Hi.
Qed.

(** C5: for a workbook with distinct sheet names whose scans all succeed,
    whatever the order in which the futures complete, [analyze_workbook]
    returns the results in the order of the workbook's sheets. *)
Theorem C5_original_sheet_order (p : Pool) (sheets : list string)
    (rs : list ScanResult) (completed : list (result ScanResult)) :
  NoDup sheets ->
  futs p sheets = map inr rs ->
  Permutation completed (futs p sheets) ->
  analyze_workbook sheets completed = inr rs /\ map sheet rs = sheets.
Proof.
  intros Hnd Hfuts Hperm.
  pose proof (futs_sheets p sheets rs Hfuts) as Hsheets.
  split; [|exact Hsheets].
  rewrite Hfuts in Hperm.
  apply Permutation_map_inv in Hperm as (rs' & -> & Hperm').
  apply analyze_workbook_restores_order; [done|done|by symmetry].
Qed.

Lemma C5_original_sheet_order_witness :
  analyze_workbook ["A"; "B"]
    [inr (scan_sheet sheet_B "B" 1 0%N); inr (scan_sheet sheet_A "A" 1 0%N)]
  = inr [scan_sheet sheet_A "A" 1 0%N; scan_sheet sheet_B "B" 1 0%N]
  /\ map sheet [scan_sheet sheet_A "A" 1 0%N; scan_sheet sheet_B "B" 1 0%N]
     = ["A"; "B"].
Proof.
  apply (C5_original_sheet_order (steady_pool workbook_AB 0%N)).
  - apply (bool_decide_unpack _). vm_compute. reflexivity.
  - reflexivity.
  - apply perm_swap.
Defined.

(** What a run does when some future holds an exception: the first one in
    completion order is raised, nothing is written, only the runtime is
    logged. *)
Lemma run_failure (sheets : list string) (rs : list ScanResult) (e : exn)
    (rest : list (result ScanResult)) (fs : gmap string string) :
  run sheets (map inr rs ++ inl e :: rest) fs
  = ({| files := fs; trace := [EvRuntime] |}, inl e).
Proof.
  unfold run, main, analyze_workbook. rewrite collect_first_failure. reflexivity.
Qed.

(** What a run does when the orchestrator returns [results]. *)
Lemma run_success (sheets : list string) (completed : list (result ScanResult))
    (results : list ScanResult) (fs : gmap string string) :
  analyze_workbook sheets completed = inr results ->
  run sheets completed fs
  = ({| files := <[OUTPUT_REPORT := render results]> fs;
        trace := EvWrite OUTPUT_REPORT (render results)
                 :: map EvPreview results ++ [EvWritten OUTPUT_REPORT; EvRuntime] |},
     inr tt).
Proof.
  intros H. unfold run, main. rewrite H.
  unfold write_report, emit, start. cbn [fst snd files trace app].
  by rewrite <- app_assoc.
Qed.

Lemma analyze_workbook_all_ok (p : Pool) (sheets : list string)
    (completed : list (result ScanResult)) (rs : list ScanResult) :
  Permutation completed (futs p sheets) ->
  completed = map inr rs ->
  exists results, analyze_workbook sheets completed = inr results
                  /\ Permutation results rs.
Proof.
  intros Hperm Hc.
  pose proof (futs_results_sheets p sheets completed rs Hperm Hc) as Hin.
  subst completed. unfold analyze_workbook. rewrite collect_all_ok. cbn.
  by apply sort_results_defined.
Qed.

(** C7: in a run over the futures of the pool, the report is written if and
    only if every future holds a result.  When one holds an exception, the
    first such future in completion order raises it out of the run, the
    files are left as they were and no write takes place; when none does,
    the run ends normally with the report in the output file. *)
Theorem C7_report_iff_all_scans_succeed (p : Pool) (sheets : list string)
    (completed : list (result ScanResult)) (fs : gmap string string) :
  Permutation completed (futs p sheets) ->
  (report_written (trace (run sheets completed fs).1)
   <-> forallb is_ok completed = true)
  /\ (forall rs e rest, completed = map inr rs ++ inl e :: rest ->
        (run sheets completed fs).2 = inl e
        /\ files (run sheets completed fs).1 = fs
        /\ ~ report_written (trace (run sheets completed fs).1))
  /\ (forallb is_ok completed = true ->
        exists results,
          (run sheets completed fs).2 = inr tt
          /\ files (run sheets completed fs).1
             = <[OUTPUT_REPORT := render results]> fs).
Proof.
  intros Hperm.
  assert (forall rs e rest, completed = map inr rs ++ inl e :: rest ->
            ~ report_written (trace (run sheets completed fs).1)) as Hnot.
  { intros rs e rest ->. rewrite run_failure. cbn. intros [content Hin].
    apply list_elem_of_singleton in Hin. done. }
  split; [|split].
  - destruct (completed_cases completed) as [(rs & Hc)|(rs & e & rest & Hc)].
    + destruct (analyze_workbook_all_ok p sheets completed rs Hperm Hc)
        as (results & Hres & _).
      rewrite (run_success _ _ _ fs Hres). cbn. split.
      * intros _. apply forallb_is_ok. by exists rs.
      * intros _. exists (render results). by left.
    + split.
      * intros Hw. by destruct (Hnot rs e rest Hc).
      * intros Hok. apply forallb_is_ok in Hok as (rs' & Hrs'). exfalso.
        assert (inl e ∈ completed) as Hin.
        { rewrite Hc. apply elem_of_app. right. by left. }
        rewrite Hrs' in Hin. apply list_elem_of_fmap in Hin as (? & ? & _). done.
  - intros rs e rest Hc. split; [|split].
    + rewrite Hc, run_failure. reflexivity.
    + rewrite Hc, run_failure. reflexivity.
    + by eapply Hnot.
  - intros (rs & Hc)%forallb_is_ok.
    destruct (analyze_workbook_all_ok p sheets completed rs Hperm Hc)
      as (results & Hres & _).
    exists results. rewrite (run_success _ _ _ fs Hres). done.
Qed.

Lemma C7_report_iff_all_scans_succeed_witness :
  (report_written (trace (run ["A"; "B"] (futs (faulty_pool workbook_AB "B") ["A"; "B"]) ∅).1)
   <-> forallb is_ok (futs (faulty_pool workbook_AB "B") ["A"; "B"]) = true)
  /\ (forall rs e rest,
        futs (faulty_pool workbook_AB "B") ["A"; "B"] = map inr rs ++ inl e :: rest ->
        (run ["A"; "B"] (futs (faulty_pool workbook_AB "B") ["A"; "B"]) ∅).2 = inl e
        /\ files (run ["A"; "B"] (futs (faulty_pool workbook_AB "B") ["A"; "B"]) ∅).1 = ∅
        /\ ~ report_written
               (trace (run ["A"; "B"] (futs (faulty_pool workbook_AB "B") ["A"; "B"]) ∅).1))
  /\ (forallb is_ok (futs (faulty_pool workbook_AB "B") ["A"; "B"]) = true ->
        exists results,
          (run ["A"; "B"] (futs (faulty_pool workbook_AB "B") ["A"; "B"]) ∅).2 = inr tt
          /\ files (run ["A"; "B"] (futs (faulty_pool workbook_AB "B") ["A"; "B"]) ∅).1
             = <[OUTPUT_REPORT := render results]> ∅).
Proof.
  apply (C7_report_iff_all_scans_succeed (faulty_pool workbook_AB "B")).
  reflexivity.
Defined.

(** A run in which the scan of "B" fails raises that exception and writes
    nothing; the same run without the failure writes the report. *)
Example run_with_failure :
  run ["A"; "B"] (futs (faulty_pool workbook_AB "B") ["A"; "B"]) ∅
  = ({| files := ∅; trace := [EvRuntime] |}, inl (IOError "cannot open")).
Proof. reflexivity. Qed.

(** C6, as stated, fails: two runs over the same workbook, with the same
    completion order, in which the scans took 120 ms and 350 ms, leave
    different report files: the report prints the elapsed time of every
    sheet. *)
Lemma C6_counterexample :
  files (run ["A"; "B"] (futs (steady_pool workbook_AB 120%N) ["A"; "B"]) ∅).1
    !! OUTPUT_REPORT
  <> files (run ["A"; "B"] (futs (steady_pool workbook_AB 350%N) ["A"; "B"]) ∅).1
    !! OUTPUT_REPORT.
Proof. vm_compute. discriminate. Qed.

(** C6, amended: two runs over a workbook with distinct sheet names in
    which every worker is given the same workbook and measures the same
    elapsed time leave the same files, whatever the two completion orders;
    when all scans succeed that file is the report of the results in sheet
    order. *)
Theorem C6_same_report_for_same_timings (p1 p2 : Pool) (sheets : list string)
    (completed1 completed2 : list (result ScanResult)) (fs : gmap string string) :
  NoDup sheets ->
  (forall s, s ∈ sheets -> opened p1 s = opened p2 s) ->
  (forall s, s ∈ sheets -> clock p1 s = clock p2 s) ->
  Permutation completed1 (futs p1 sheets) ->
  Permutation completed2 (futs p2 sheets) ->
  files (run sheets completed1 fs).1 = files (run sheets completed2 fs).1
  /\ (forall rs, futs p1 sheets = map inr rs ->
        files (run sheets completed1 fs).1 = <[OUTPUT_REPORT := render rs]> fs).
Proof.
  intros Hnd Hopen Hclock Hperm1 Hperm2.
  assert (futs p2 sheets = futs p1 sheets) as Hsame.
  { unfold futs. apply map_ext_in. intros s Hs%list_elem_of_In.
    unfold submit. by rewrite Hopen, Hclock. }
  rewrite Hsame in Hperm2.
  assert (forall completed rs, Permutation completed (futs p1 sheets) ->
            futs p1 sheets = map inr rs ->
            files (run sheets completed fs).1 = <[OUTPUT_REPORT := render rs]> fs)
    as Hok.
  { intros completed rs Hperm Hfuts.
    pose proof (futs_sheets p1 sheets rs Hfuts) as Hsheets.
    rewrite Hfuts in Hperm.
    apply Permutation_map_inv in Hperm as (rs' & -> & Hperm').
    symmetry in Hperm'.
    by rewrite (run_success _ _ _ fs
                  (analyze_workbook_restores_order sheets rs rs' Hnd Hsheets Hperm')). }
  split; [|intros rs Hfuts; by apply Hok].
  destruct (completed_cases (futs p1 sheets)) as [(rs & Hfuts)|(rs & e & rest & Hfuts)].
  - by rewrite (Hok completed1 rs), (Hok completed2 rs).
  - assert (forall completed, Permutation completed (futs p1 sheets) ->
              files (run sheets completed fs).1 = fs) as Hfail.
    { intros completed Hperm.
      destruct (completed_cases completed) as [(rs' & Hc)|(rs' & e' & rest' & Hc)].
      - exfalso. assert (inl e ∈ completed) as Hin.
        { rewrite Hperm, Hfuts. apply elem_of_app. right. by left. }
        rewrite Hc in Hin. apply list_elem_of_fmap in Hin as (? & ? & _). done.
      - by rewrite Hc, run_failure. }
    by rewrite (Hfail completed1), (Hfail completed2).
Qed.

Lemma C6_same_report_for_same_timings_witness :
  files (run ["A"; "B"]
           [inr (scan_sheet sheet_B "B" 1 120%N); inr (scan_sheet sheet_A "A" 1 120%N)] ∅).1
  = files (run ["A"; "B"]
             [inr (scan_sheet sheet_A "A" 1 120%N); inr (scan_sheet sheet_B "B" 1 120%N)] ∅).1
  /\ (forall rs, futs (steady_pool workbook_AB 120%N) ["A"; "B"] = map inr rs ->
        files (run ["A"; "B"]
                 [inr (scan_sheet sheet_B "B" 1 120%N); inr (scan_sheet sheet_A "A" 1 120%N)] ∅).1
        = <[OUTPUT_REPORT := render rs]> ∅).
Proof.
  apply (C6_same_report_for_same_timings
           (steady_pool workbook_AB 120%N) (steady_pool workbook_AB 120%N)).
  - apply (bool_decide_unpack _). vm_compute. reflexivity.
  - reflexivity.
  - reflexivity.
  - apply perm_swap.
  - reflexivity.
Defined.

(** The report of the scenario of the specification, with both scans
    taking 1.5 s. *)
Example scenario_report :
  render [scan_sheet sheet_A "A" 1 1500%N; scan_sheet sheet_B "B" 1 1500%N]
  = String.concat NL
      [ "# Real row count analysis: Data_Base.xlsx" +:+ NL;
        "## Sheet: **A**"; "- Header row: **1**"; "- Excel max_row: **100**";
        "- Last populated row: **90**"; "- Real row count: **89**";
        "- Elapsed: 1.5 s"; "";
        "## Sheet: **B**"; "- Header row: **1**"; "- Excel max_row: **5**";
        "- Last populated row: **5**"; "- Real row count: **4**";
        "- Elapsed: 1.5 s"; "" ].
Proof. vm_compute. reflexivity. Qed.

End OrchestratorProofs.

(** * Properties of the cell normaliser *)

Module NormalizeProofs.
Import XlsxToParquet.

Lemma lstrip_head (s : pystr) (c : N) :
  head (lstrip s) = Some c -> isspace c = false.
Proof.
  induction s as [|a s IH]; cbn; [done|].
  destruct (isspace a) eqn:Ha; [exact IH|].
  cbn. by intros [= <-].
Qed.

Lemma lstrip_suffix (s : pystr) : exists p, s = p ++ lstrip s.
Proof.
  induction s as [|a s [p IH]]; cbn; [by exists []|].
  destruct (isspace a).
  - exists (a :: p). cbn. by f_equal.
  - by exists [].
Qed.

Lemma lstrip_fixed (s : pystr) :
  (forall c, head s = Some c -> isspace c = false) -> lstrip s = s.
Proof.
  destruct s as [|a s]; cbn; [done|].
  intros H. by rewrite (H a eq_refl).
Qed.

Lemma last_suffix (p s : pystr) (c : N) :
  last s = Some c -> last (p ++ s) = Some c.
Proof.
  intros H. destruct s as [|a s]; [done|]. by rewrite last_app, H.
Qed.

Lemma head_rev (s : pystr) : head (rev s) = last s.
Proof.
  rewrite rev_alt. apply (head_reverse s).
Qed.

Lemma last_rev (s : pystr) : last (rev s) = head s.
Proof. rewrite <- (rev_involutive s) at 2. by rewrite head_rev. Qed.

Lemma strip_trimmed (s : pystr) : trimmed (strip s).
Proof.
  unfold strip, rstrip. split; intros c Hc.
  - rewrite head_rev in Hc.
    destruct (lstrip_suffix (rev (lstrip s))) as [p Hp].
    apply (last_suffix p) in Hc. rewrite <- Hp, last_rev in Hc.
    by eapply lstrip_head.
  - rewrite last_rev in Hc. by eapply lstrip_head.
Qed.

Lemma strip_fixed (s : pystr) : trimmed s -> strip s = s.
Proof.
  intros [Hh Hl]. unfold strip, rstrip.
  rewrite (lstrip_fixed s Hh).
  rewrite lstrip_fixed; [apply rev_involutive|].
  intros c. rewrite head_rev. apply Hl.
Qed.

(** Replacing a white-space character by a space leaves white space where
    it was and nowhere else. *)
Lemma replace_trimmed (old : N) (s : pystr) :
  isspace old = true -> trimmed s -> trimmed (replace old SP s).
Proof.
  intros Hold [Hh Hl]. unfold replace.
  assert (forall c, isspace (if (c =? old)%N then SP else c) = isspace c) as Hsp.
  { intros c. destruct (N.eqb_spec c old) as [->|]; [by rewrite Hold|done]. }
  split; intros c.
  - destruct s as [|a s]; cbn; [done|]. intros [= <-]. rewrite Hsp. by apply Hh.
  - change (map ?f s) with (f <$> s). rewrite fmap_last.
    destruct (last s) as [a|] eqn:Ha; cbn; [|done].
    intros [= <-]. rewrite Hsp. by apply Hl.
Qed.

Lemma replace_absent (old new : N) (s : pystr) :
  old ∉ s -> replace old new s = s.
Proof.
  unfold replace. induction s as [|a s IH]; cbn; [done|].
  intros [Hne Hs]%not_elem_of_cons.
  destruct (N.eqb_spec a old) as [->|]; [done|]. by rewrite IH.
Qed.

(** The substitution, from either state, yields single-spaced text. *)
Lemma re_sub_single_spaced (s : pystr) (b : bool) :
  single_spaced b (re_sub_from b s) = true.
Proof.
  revert b. induction s as [|c s IH]; intros b; cbn; [done|].
  destruct (isspace c) eqn:Hc.
  - destruct b; [apply IH|]. cbn. by rewrite IH.
  - cbn. rewrite Hc. apply IH.
Qed.

(** Single-spaced text is left as it is. *)
Lemma re_sub_fixed (s : pystr) (b : bool) :
  single_spaced b s = true -> re_sub_from b s = s.
Proof.
  revert b. induction s as [|c s IH]; intros b; cbn; [done|].
  destruct (isspace c) eqn:Hc.
  - intros [[Heq Hb]%andb_true_iff Hs]%andb_true_iff.
    apply N.eqb_eq in Heq. apply negb_true_iff in Hb. subst.
    by rewrite IH.
  - intros Hs. by rewrite IH.
Qed.

Lemma re_sub_head (s : pystr) (b : bool) (c : N) :
  (forall a, head s = Some a -> isspace a = false) ->
  head (re_sub_from b s) = Some c -> isspace c = false.
Proof.
  destruct s as [|a s]; cbn; [done|].
  intros H. rewrite (H a eq_refl). cbn. intros [= <-]. by apply H.
Qed.

Lemma re_sub_last (s : pystr) (b : bool) :
  (forall a, last s = Some a -> isspace a = false) ->
  last (re_sub_from b s) = last s.
Proof.
  revert b. induction s as [|c s IH]; intros b H; [done|].
  destruct (decide (s = [])) as [->|Hne].
  - cbn in *. by rewrite (H c eq_refl).
  - assert (last (c :: s) = last s) as Hlast.
    { rewrite last_cons. destruct (last s) eqn:E; [done|]. by apply last_None in E. }
    assert (forall a, last s = Some a -> isspace a = false) as H'.
    { intros a Ha. apply H. by rewrite Hlast. }
    assert (forall h b', last (h :: re_sub_from b' s) = last s) as Hcons.
    { intros h b'. rewrite last_cons, (IH b' H').
      destruct (last s) eqn:E; [done|]. by apply last_None in E. }
    rewrite Hlast. cbn [re_sub_from].
    destruct (isspace c); [destruct b|];
      [by apply IH | apply (Hcons SP true) | apply (Hcons c false)].
Qed.

Lemma re_sub_trimmed (s : pystr) : trimmed s -> trimmed (re_sub_spaces s).
Proof.
  intros [Hh Hl]. unfold re_sub_spaces. split; intros c Hc.
  - by eapply re_sub_head.
  - rewrite re_sub_last in Hc by done. by apply Hl.
Qed.

(** What single-spaced text looks like. *)
Lemma single_spaced_only_spaces (s : pystr) (b : bool) (c : N) :
  single_spaced b s = true -> c ∈ s -> isspace c = true -> c = SP.
Proof.
  revert b. induction s as [|a s IH]; intros b Hs Hin Hc; [by inv Hin|].
  cbn in Hs. apply elem_of_cons in Hin as [->|Hin].
  - rewrite Hc in Hs. apply andb_true_iff in Hs as [[Heq _]%andb_true_iff _].
    by apply N.eqb_eq.
  - destruct (isspace a).
    + apply andb_true_iff in Hs as [_ Hs]. by eapply IH.
    + by eapply IH.
Qed.

Lemma single_spaced_no_run (s : pystr) (b : bool) (i : nat) (x y : N) :
  single_spaced b s = true ->
  s !! i = Some x -> s !! S i = Some y ->
  isspace x = true -> isspace y = false.
Proof.
  revert b i. induction s as [|a s IH]; intros b i Hs Hx Hy Hwx; [done|].
  cbn in Hs. destruct i as [|i]; cbn in Hx, Hy.
  - injection Hx as ->. rewrite Hwx in Hs.
    apply andb_true_iff in Hs as [_ Hs].
    destruct s as [|d s]; [done|]. cbn in Hy. injection Hy as ->.
    cbn in Hs. destruct (isspace y); [|done].
    by rewrite andb_false_r in Hs.
  - destruct (isspace a).
    + apply andb_true_iff in Hs as [_ Hs]. by eapply IH.
    + by eapply IH.
Qed.

(** The text [normalize_cell] returns is trimmed and single-spaced. *)
Lemma normalize_cell_shape (x : pyval) :
  trimmed (normalize_cell x) /\ single_spaced false (normalize_cell x) = true.
Proof.
  unfold normalize_cell. destruct (isna x).
  - split; [split; done|done].
  - split; [|apply re_sub_single_spaced].
    apply re_sub_trimmed. apply replace_trimmed; [done|].
    apply replace_trimmed; [done|]. apply strip_trimmed.
Qed.

(** C9: [normalize_cell] is idempotent, and the text it returns holds no
    tab and no line feed (its only white space is the space), neither
    begins nor ends with white space, and has no two spaces in a row. *)
Theorem C9_normalize_cell_idempotent (x : pyval) :
  normalize_cell (PStr (normalize_cell x)) = normalize_cell x
  /\ (TAB ∉ normalize_cell x)
  /\ (LF ∉ normalize_cell x)
  /\ (forall c, c ∈ normalize_cell x -> isspace c = true -> c = SP)
  /\ trimmed (normalize_cell x)
  /\ (forall i, normalize_cell x !! i = Some SP ->
                normalize_cell x !! S i <> Some SP).
Proof.
  destruct (normalize_cell_shape x) as [Htrim Hsingle].
  set (r := normalize_cell x) in *.
  assert (forall c, c ∈ r -> isspace c = true -> c = SP) as Hsp
    by (intros c; by apply (single_spaced_only_spaces r false)).
  assert (TAB ∉ r) as Htab by (intros H; by specialize (Hsp TAB H eq_refl)).
  assert (LF ∉ r) as Hlf by (intros H; by specialize (Hsp LF H eq_refl)).
  split; [|repeat split; try done; try apply Htrim].
  - unfold normalize_cell at 1. cbn [isna str].
    rewrite (strip_fixed r Htrim), (replace_absent LF SP r Hlf),
      (replace_absent TAB SP r Htab).
    by apply re_sub_fixed.
  - intros i Hi Hsi.
    by pose proof (single_spaced_no_run r false i SP SP Hsingle Hi Hsi eq_refl).
Qed.

(** Samples: inner runs collapse, the ends are trimmed, a missing value
    becomes the empty text. *)
Example normalize_cell_sample :
  normalize_cell (PStr (lit "  EA   Heat  pumps ")) = lit "EA Heat pumps"
  /\ normalize_cell (PStr [9; 69; 10; 10; 66; 160]%N) = [69; 32; 66]%N
  /\ normalize_cell PNaN = [].
Proof. repeat split; reflexivity. Qed.

End NormalizeProofs.

(** * Properties of the dictionary *)

Module DictionaryProofs.
Import XlsxToParquet.

Lemma str_compare_eq (a b : pystr) : str_compare a b = Eq -> a = b.
Proof.
  revert b. induction a as [|x a IH]; intros [|y b]; cbn; try done.
  destruct (N.compare_spec x y) as [->| |]; try done.
  intros H. f_equal. by apply IH.
Qed.

Lemma str_compare_refl (a : pystr) : str_compare a a = Eq.
Proof. induction a as [|x a IH]; cbn; [done|]. by rewrite N.compare_refl. Qed.

Lemma str_compare_opp (a b : pystr) :
  str_compare b a = CompOpp (str_compare a b).
Proof.
  revert b. induction a as [|x a IH]; intros [|y b]; cbn; try done.
  rewrite (N.compare_antisym x y).
  destruct (x ?= y)%N; cbn; auto.
Qed.

Lemma str_compare_lt_trans (a b c : pystr) :
  str_compare a b = Lt -> str_compare b c = Lt -> str_compare a c = Lt.
Proof.
  revert b c. induction a as [|x a IH]; intros [|y b] [|z c]; cbn; try done.
  destruct (N.compare_spec x y) as [->|Hxy|Hxy]; try done.
  - destruct (y ?= z)%N; try done. apply IH.
  - destruct (N.compare_spec y z) as [->|Hyz|Hyz]; try done.
    + intros _ _. by apply N.compare_lt_iff in Hxy as ->.
    + intros _ _. assert (x < z)%N as ->%N.compare_lt_iff by lia. done.
Qed.

Lemma str_compare_le_trans (a b c : pystr) :
  str_compare a b <> Gt -> str_compare b c <> Gt -> str_compare a c <> Gt.
Proof.
  intros Hab Hbc.
  destruct (str_compare a b) eqn:E1; [|clear Hab|done].
  - apply str_compare_eq in E1 as ->. done.
  - destruct (str_compare b c) eqn:E2; [| |done].
    + apply str_compare_eq in E2 as ->. by rewrite E1.
    + by rewrite (str_compare_lt_trans a b c E1 E2).
Qed.

Lemma key_le_total (x y : TidyRow) : key_le x y = true \/ key_le y x = true.
Proof.
  unfold key_le.
  rewrite (str_compare_opp (level1_code x) (level1_code y)).
  rewrite (str_compare_opp (level2_code x) (level2_code y)).
  destruct (str_compare (level1_code x) (level1_code y)); cbn; auto.
  destruct (str_compare (level2_code x) (level2_code y)); cbn; auto.
Qed.

Lemma key_le_trans (x y z : TidyRow) :
  key_le x y = true -> key_le y z = true -> key_le x z = true.
Proof.
  destruct x as [a1 n1 b1 d1 c1], y as [a2 n2 b2 d2 c2], z as [a3 n3 b3 d3 c3].
  unfold key_le. cbn.
  destruct (str_compare a1 a2) eqn:E1; [| |done].
  - apply str_compare_eq in E1. subst a2.
    destruct (str_compare a1 a3); try done.
    intros Hxy Hyz.
    pose proof (str_compare_le_trans b1 b2 b3) as Ht.
    destruct (str_compare b1 b3); try done.
    exfalso. apply Ht; [by destruct (str_compare b1 b2)
                       |by destruct (str_compare b2 b3)|done].
  - intros _.
    destruct (str_compare a2 a3) eqn:E2; [| |done].
    + apply str_compare_eq in E2. subst a3. by rewrite E1.
    + by rewrite (str_compare_lt_trans _ _ _ E1 E2).
Qed.

(** The key column numbers the rows from 1. *)
Lemma insert_hepa_id_ids (df_all : list TidyRow) :
  map hepa_id (insert_hepa_id df_all) = map Z.of_nat (seq 1 (length df_all)).
Proof.
  unfold insert_hepa_id.
  assert (forall (k : nat) (f : nat -> nat),
            (forall i, f i = (k + i)%nat) ->
            map hepa_id
              (imap (fun i r =>
                 {| hepa_id := Z.of_nat (f i) + 1; tidy := r; level := 2;
                    code := level2_code r; name := level2_name r;
                    path := path_of r |}) df_all)
            = map Z.of_nat (seq (S k) (length df_all))) as H.
  { induction df_all as [|r l IH]; intros k f Hf; cbn; [done|].
    f_equal; [rewrite Hf; lia|].
    apply (IH (S k) (fun i => f (S i))). intros i. rewrite Hf. lia. }
  apply (H 0%nat (fun i => i)). done.
Qed.

Lemma insert_hepa_id_rows (df_all : list TidyRow) :
  map tidy (insert_hepa_id df_all) = df_all.
Proof.
  unfold insert_hepa_id.
  assert (forall (g : nat -> Z),
            map tidy
              (imap (fun i r =>
                 {| hepa_id := g i; tidy := r; level := 2;
                    code := level2_code r; name := level2_name r;
                    path := path_of r |}) df_all) = df_all) as H.
  { induction df_all as [|r l IH]; intros g; cbn; [done|].
    f_equal. apply (IH (fun i => g (S i))). }
  apply (H (fun i => Z.of_nat i + 1)).
Qed.

(** The sample workbook yields the three code rows of sheet "E", in sheet
    order, before the sort. *)
Example sample_collect_rows :
  collect_rows ascii_letter sample_sheets = inr sample_rows.
Proof. vm_compute. reflexivity. Qed.

(** C10: when the rows of the lettered sheets can be gathered,
    [build_dictionary] returns them sorted by (level1_code, level2_code),
    rows with the same key in the order they had before, and its [hepa_id]
    column is 1, 2, ..., N for the N rows: no gap and no duplicate. *)
Theorem C10_dense_surrogate_key (isalpha : N -> bool)
    (sheets : list (pystr * DataFrame)) (df_all : list TidyRow) :
  collect_rows isalpha sheets = inr df_all ->
  exists df,
    build_dictionary isalpha sheets = inr df
    /\ length df = length df_all
    /\ map hepa_id df = map Z.of_nat (seq 1 (length df))
    /\ NoDup (map hepa_id df)
    /\ StronglySorted (fun a b => key_le (tidy a) (tidy b) = true) df
    /\ Permutation (map tidy df) df_all
    /\ (forall z, List.filter (same_key z) (map tidy df)
                  = List.filter (same_key z) df_all).
Proof.
  intros Hrows. exists (insert_hepa_id (sort_values df_all)).
  assert (length (insert_hepa_id (sort_values df_all)) = length df_all) as Hlen.
  { rewrite <- (length_map tidy), insert_hepa_id_rows.
    apply stable_sort_length. }
  split; [unfold build_dictionary; by rewrite Hrows|].
  split; [exact Hlen|].
  assert (map hepa_id (insert_hepa_id (sort_values df_all))
          = map Z.of_nat (seq 1 (length (insert_hepa_id (sort_values df_all)))))
    as Hids.
  { rewrite insert_hepa_id_ids, Hlen. unfold sort_values.
    by rewrite stable_sort_length. }
  split; [exact Hids|].
  split.
  { rewrite Hids. apply NoDup_fmap_2; [intros a b; lia|apply NoDup_seq]. }
  split.
  { pose proof (stable_sort_sorted key_le key_le_total key_le_trans df_all) as Hs.
    fold (sort_values df_all) in Hs.
    rewrite <- (insert_hepa_id_rows (sort_values df_all)) in Hs.
    revert Hs. generalize (insert_hepa_id (sort_values df_all)).
    intros l. induction l as [|e l IH]; cbn; intros Hs; [constructor|].
    apply StronglySorted_inv in Hs as [Hs Hall].
    constructor; [by apply IH|].
    apply Forall_forall. intros b Hb.
    rewrite Forall_forall in Hall. apply Hall.
    by apply (list_elem_of_fmap_2 tidy). }
  rewrite insert_hepa_id_rows. split.
  - apply stable_sort_perm.
  - intros z. apply (stable_sort_stable key_le key_le_trans).
Qed.

Lemma C10_dense_surrogate_key_witness :
  exists df,
    build_dictionary ascii_letter sample_sheets = inr df
    /\ length df = length sample_rows
    /\ map hepa_id df = map Z.of_nat (seq 1 (length df))
    /\ NoDup (map hepa_id df)
    /\ StronglySorted (fun a b => key_le (tidy a) (tidy b) = true) df
    /\ Permutation (map tidy df) sample_rows
    /\ (forall z, List.filter (same_key z) (map tidy df)
                  = List.filter (same_key z) sample_rows).
Proof.
  apply (C10_dense_surrogate_key ascii_letter sample_sheets sample_rows).
  vm_compute. reflexivity.
Defined.

(** The dictionary of the sample workbook: EA, EAB, EB with keys 1, 2, 3. *)
Example sample_dictionary :
  (let! df := build_dictionary ascii_letter sample_sheets in
   ret (map (fun e => (hepa_id e, code e, path e)) df))
  = inr [ (1, lit "EA", lit "E Energy > EA Heat pumps");
          (2, lit "EAB", lit "E Energy > EAB Air source");
          (3, lit "EB", lit "E Energy > EB Boilers") ].
Proof. vm_compute. reflexivity. Qed.

End DictionaryProofs.

(** * Further properties of the row scanner *)

Module ScannerCoverage.
Import DataAnalysis ScannerProofs.

Lemma In_py_range (start stop c : Z) :
  In c (py_range start stop) <-> start <= c < stop.
Proof.
  unfold py_range. rewrite in_map_iff. split.
  - intros (k & <- & Hk). apply in_seq in Hk. lia.
  - intros H. exists (Z.to_nat (c - start)). split; [lia|].
    apply in_seq. lia.
Qed.

Lemma in_blanks_false_iff (v : CellValue) :
  in_blanks v = false <-> v <> VNone /\ v <> VStr "" /\ v <> VStr " ".
Proof.
  destruct v as [|s| | | |]; cbn; try (split; [by repeat split|done]).
  - split; [done|]. by intros [? _].
  - rewrite orb_false_iff, !String.eqb_neq. split.
    + intros [H1 H2]. repeat split; congruence.
    + intros (_ & H1 & H2). split; congruence.
Qed.

Lemma row_populated_ext (ws1 ws2 : Worksheet) (mc r : Z) :
  (forall c, 1 <= c <= mc -> cell ws1 r c = cell ws2 r c) ->
  row_populated ws1 mc r = row_populated ws2 mc r.
Proof.
  intros H. unfold row_populated, row_values. f_equal.
  apply map_ext_in. intros c Hc%In_py_range. apply H. lia.
Qed.

Lemma scan_rows_ext (ws1 ws2 : Worksheet) (mc d : Z) (rows : list Z) :
  (forall r, In r rows -> row_populated ws1 mc r = row_populated ws2 mc r) ->
  scan_rows ws1 mc rows d = scan_rows ws2 mc rows d.
Proof.
  induction rows as [|r rows IH]; intros H; cbn; [done|].
  rewrite (H r) by (by left). rewrite IH; [done|].
  intros r' Hr'. apply H. by right.
Qed.

(** X2: the scan reads nothing but the cells of the rows below the header
    row up to the reported last row, in the reported columns: two sheets
    that report the same extent and agree on those cells get the same
    result, whatever the header row, the rows above it and the columns to
    the right hold. *)
Theorem X2_scan_reads_only_data_range (ws1 ws2 : Worksheet) (name : string)
    (h : Z) (e : millis) :
  max_row ws1 = max_row ws2 ->
  max_column ws1 = max_column ws2 ->
  (forall r c, h < r <= or0 (max_row ws1) -> 1 <= c <= or0 (max_column ws1) ->
               cell ws1 r c = cell ws2 r c) ->
  scan_sheet ws1 name h e = scan_sheet ws2 name h e.
Proof.
  intros Hrow Hcol Hcells. unfold scan_sheet. rewrite <- Hrow, <- Hcol.
  rewrite (scan_rows_ext ws1 ws2); [done|].
  intros r Hr%In_py_range_down. apply row_populated_ext.
  intros c Hc. by apply Hcells.
Qed.

Lemma X2_scan_reads_only_data_range_witness :
  scan_sheet sheet_B "B" 1 0%N = scan_sheet sheet_B_variant "B" 1 0%N.
Proof.
  apply X2_scan_reads_only_data_range; [reflexivity|reflexivity|].
  intros r c Hr Hc. cbn in Hr, Hc. cbn.
  replace (r <=? 1) with false by (symmetry; apply Z.leb_gt; lia).
  replace (4 <=? c) with false by (symmetry; apply Z.leb_gt; lia).
  reflexivity.
Defined.

(** X3: a number, a boolean or a date in one of the reported columns makes
    its row count as populated, also the number 0 and the value False. *)
Theorem X3_non_text_cell_populates (ws : Worksheet) (mc r c : Z) :
  1 <= c <= mc ->
  (forall s, cell ws r c <> VStr s) ->
  cell ws r c <> VNone ->
  row_populated ws mc r = true.
Proof.
  intros Hc Hstr Hnone. apply row_populated_iff. exists c. split; [done|].
  apply in_blanks_false_iff. repeat split; [done|apply Hstr..].
Qed.

Lemma X3_non_text_cell_populates_witness :
  row_populated sheet_zero_total 2 4 = true.
Proof.
  apply (X3_non_text_cell_populates sheet_zero_total 2 4 2); [lia|done|done].
Defined.

(** X4: when the reported last row is not below the header row, or the
    sheet reports no column (also when openpyxl reports no extent at all),
    no row counts as populated: the result is the header row and the count
    0, whatever the cells hold. *)
Theorem X4_degenerate_extent (ws : Worksheet) (name : string) (h : Z) (e : millis) :
  or0 (max_row ws) <= h \/ or0 (max_column ws) <= 0 ->
  last_populated_row (scan_sheet ws name h e) = h
  /\ real_row_count (scan_sheet ws name h e) = 0.
Proof.
  intros Hdeg.
  destruct (scan_sheet_spec ws name h e) as (Hb & _ & Hpop).
  assert (last_populated_row (scan_sheet ws name h e) = h) as Heq.
  { destruct (decide (h < last_populated_row (scan_sheet ws name h e))) as [Hlt|]; [|lia].
    destruct Hdeg as [Hrow|Hcol]; [cbn in *; lia|].
    specialize (Hpop Hlt). apply row_populated_iff in Hpop as (c & Hc & _). lia. }
  split; [exact Heq|].
  change (Z.max 0 (last_populated_row (scan_sheet ws name h e) - h) = 0).
  rewrite Heq. lia.
Qed.

Lemma X4_degenerate_extent_witness :
  last_populated_row (scan_sheet sheet_no_columns "N" 1 0%N) = 1
  /\ real_row_count (scan_sheet sheet_no_columns "N" 1 0%N) = 0.
Proof. apply X4_degenerate_extent. right. cbn. lia. Defined.



End ScannerCoverage.

(** * Further properties of the orchestrator and of the report *)

Module OrchestratorCoverage.
Import DataAnalysis OrchestratorProofs.

Lemma sort_keys_values (order : gmap string nat) (rs : list ScanResult)
    (keys : list nat) :
  sort_keys order rs = inr keys -> keys = map (key_of order) rs.
Proof.
  revert keys. induction rs as [|r rs IH]; intros keys; cbn; [by intros [= <-]|].
  unfold sort_key, key_of at 1.
  destruct (order !! sheet r) as [k|]; cbn; [|done].
  destruct (sort_keys order rs) as [e|ks]; cbn; [done|].
  intros [= <-]. by rewrite (IH ks).
Qed.

Lemma keyed_sorted_snd {B} (key : B -> nat) (l : list (nat * B)) :
  Forall (fun x => x.1 = key x.2) l ->
  StronglySorted (fun a b : nat * B => (a.1 <=? b.1)%nat = true) l ->
  StronglySorted (fun a b => (key a <= key b)%nat) (map snd l).
Proof.
  intros Hkey Hs. induction Hs as [|x l Hs IH Hx]; cbn; [constructor|].
  apply Forall_cons in Hkey as [Hx0 Hkey].
  constructor; [by apply IH|].
  apply Forall_forall. intros b Hb.
  apply list_elem_of_fmap in Hb as (y & -> & Hy).
  rewrite Forall_forall in Hx. specialize (Hx y Hy). apply Nat.leb_le in Hx.
  rewrite Forall_forall in Hkey. rewrite <- Hx0, <- (Hkey y Hy). done.
Qed.

Lemma sort_results_sorted (order : gmap string nat) (rs results : list ScanResult) :
  sort_results order rs = inr results ->
  StronglySorted (fun a b => (key_of order a <= key_of order b)%nat) results.
Proof.
  unfold sort_results. destruct (sort_keys order rs) as [e|keys] eqn:Hk; cbn; [done|].
  intros [= <-]. apply sort_keys_values in Hk as ->.
  rewrite zip_map_keys. apply keyed_sorted_snd.
  - unfold sort_keyed.
    eapply Permutation_Forall; [symmetry; apply stable_sort_perm|].
    apply Forall_forall. intros x (r & -> & _)%list_elem_of_fmap. done.
  - apply stable_sort_sorted.
    + intros x y. rewrite !Nat.leb_le. lia.
    + intros x y z. rewrite !Nat.leb_le. lia.
Qed.

(** X6: when every scan of a run succeeds, [analyze_workbook] returns each
    collected result exactly once, as many as there are sheets, arranged
    by ascending [order] index; this holds for any list of sheet names. *)
Theorem X6_analyze_workbook_keeps_results (p : Pool) (sheets : list string)
    (completed : list (result ScanResult)) (rs : list ScanResult) :
  Permutation completed (futs p sheets) ->
  completed = map inr rs ->
  exists results,
    analyze_workbook sheets completed = inr results
    /\ Permutation results rs
    /\ length results = length sheets
    /\ StronglySorted
         (fun a b => (key_of (order_of sheets) a <= key_of (order_of sheets) b)%nat)
         results.
Proof.
  intros Hperm Hc.
  destruct (analyze_workbook_all_ok p sheets completed rs Hperm Hc)
    as (results & Hres & Hp).
  exists results. split; [done|]. split; [done|]. split.
  - rewrite (Permutation_length Hp).
    apply Permutation_length in Hperm. subst completed.
    rewrite length_map in Hperm. unfold futs in Hperm.
    by rewrite length_map in Hperm.
  - subst completed. unfold analyze_workbook in Hres.
    rewrite collect_all_ok in Hres. cbn in Hres.
    by eapply sort_results_sorted.
Qed.

Lemma X6_analyze_workbook_keeps_results_witness :
  exists results,
    analyze_workbook ["A"; "B"]
      [inr (scan_sheet sheet_B "B" 1 0%N); inr (scan_sheet sheet_A "A" 1 0%N)]
    = inr results
    /\ Permutation results [scan_sheet sheet_B "B" 1 0%N; scan_sheet sheet_A "A" 1 0%N]
    /\ length results = length ["A"; "B"]
    /\ StronglySorted
         (fun a b => (key_of (order_of ["A"; "B"]) a <= key_of (order_of ["A"; "B"]) b)%nat)
         results.
Proof.
  apply (X6_analyze_workbook_keeps_results (steady_pool workbook_AB 0%N)).
  - apply perm_swap.
  - reflexivity.
Defined.

Lemma order_fold_last (l : list string) :
  forall (k : nat) (m : gmap string nat) (s : string),
    (s ∉ l ->
       fold_left (fun m (e : nat * string) => <[e.2 := e.1]> m)
         (zip (seq k (length l)) l) m !! s = m !! s)
    /\ (s ∈ l ->
        exists i,
          fold_left (fun m (e : nat * string) => <[e.2 := e.1]> m)
            (zip (seq k (length l)) l) m !! s = Some (k + i)%nat
          /\ l !! i = Some s
          /\ forall j, l !! j = Some s -> (j <= i)%nat).
Proof.
  induction l as [|a l IH]; intros k m s.
  - split; [done|]. intros H. inv H.
  - cbn. destruct (IH (S k) (<[a:=k]> m) s) as [Hout Hin]. split.
    + intros [Hne Hs]%not_elem_of_cons. rewrite (Hout Hs).
      by rewrite lookup_insert_ne.
    + intros Hs. destruct (decide (s ∈ l)) as [Hl|Hl].
      * destruct (Hin Hl) as (i & Hi & Hli & Hmax).
        exists (S i). split; [rewrite Hi; f_equal; lia|]. split; [done|].
        intros [|j] Hj; [lia|]. cbn in Hj. specialize (Hmax j Hj). lia.
      * apply elem_of_cons in Hs as [->|Hs]; [|done].
        exists 0%nat. rewrite (Hout Hl), lookup_insert_eq.
        split; [f_equal; lia|]. split; [done|].
        intros [|j] Hj; [lia|]. cbn in Hj.
        apply list_elem_of_lookup_2 in Hj. done.
Qed.

(** X7: the [order] dictionary holds a sheet name exactly when the
    workbook lists it, and maps it to the last position at which the name
    is listed. *)
Theorem X7_order_last_position (sheets : list string) (s : string) :
  (order_of sheets !! s = None <-> s ∉ sheets)
  /\ (forall i, order_of sheets !! s = Some i ->
        sheets !! i = Some s /\ forall j, sheets !! j = Some s -> (j <= i)%nat).
Proof.
  unfold order_of, enumerate.
  destruct (order_fold_last sheets 0 ∅ s) as [Hout Hin].
  destruct (decide (s ∈ sheets)) as [Hs|Hs].
  - destruct (Hin Hs) as (i & Hi & Hli & Hmax). rewrite Hi. split.
    + split; [done|]. intros H. done.
    + intros i' [= <-]. done.
  - rewrite (Hout Hs), lookup_empty. split; [done|]. intros i H. done.
Qed.

(** X8: no run changes a file other than the report: whatever the
    completion order and the outcome, every other path holds afterwards
    what it held before. *)
Theorem X8_run_touches_only_report (sheets : list string)
    (completed : list (result ScanResult)) (fs : gmap string string)
    (path : string) :
  path <> OUTPUT_REPORT ->
  files (run sheets completed fs).1 !! path = fs !! path.
Proof.
  intros Hne. destruct (analyze_workbook sheets completed) as [e|results] eqn:Ha.
  - unfold run, main. rewrite Ha. reflexivity.
  - rewrite (run_success _ _ _ fs Ha). cbn. by rewrite lookup_insert_ne.
Qed.

Lemma X8_run_touches_only_report_witness :
  files (run ["A"; "B"] (futs (steady_pool workbook_AB 0%N) ["A"; "B"])
           {[ "Data_Base.xlsx" := "workbook bytes" ]}).1 !! "Data_Base.xlsx"
  = ({[ "Data_Base.xlsx" := "workbook bytes" ]} : gmap string string) !! "Data_Base.xlsx".
Proof. apply X8_run_touches_only_report. done. Defined.

(** X9: a run over a workbook with distinct sheet names whose scans all
    succeed replaces the report by the rendering of the results in sheet
    order, and only then logs one preview per sheet, in sheet order, the
    path written and the runtime; it ends normally. *)
Theorem X9_successful_run (p : Pool) (sheets : list string) (rs : list ScanResult)
    (completed : list (result ScanResult)) (fs : gmap string string) :
  NoDup sheets ->
  futs p sheets = map inr rs ->
  Permutation completed (futs p sheets) ->
  run sheets completed fs
  = ({| files := <[OUTPUT_REPORT := render rs]> fs;
        trace := EvWrite OUTPUT_REPORT (render rs)
                 :: map EvPreview rs ++ [EvWritten OUTPUT_REPORT; EvRuntime] |},
     inr tt).
Proof.
  intros Hnd Hfuts Hperm.
  pose proof (futs_sheets p sheets rs Hfuts) as Hsheets.
  rewrite Hfuts in Hperm.
  apply Permutation_map_inv in Hperm as (rs' & -> & Hperm'). symmetry in Hperm'.
  apply run_success. by apply analyze_workbook_restores_order.
Qed.

Lemma X9_successful_run_witness :
  run ["A"; "B"]
    [inr (scan_sheet sheet_B "B" 1 0%N); inr (scan_sheet sheet_A "A" 1 0%N)] ∅
  = ({| files := <[OUTPUT_REPORT :=
                     render [scan_sheet sheet_A "A" 1 0%N; scan_sheet sheet_B "B" 1 0%N]]> ∅;
        trace := EvWrite OUTPUT_REPORT
                   (render [scan_sheet sheet_A "A" 1 0%N; scan_sheet sheet_B "B" 1 0%N])
                 :: map EvPreview [scan_sheet sheet_A "A" 1 0%N; scan_sheet sheet_B "B" 1 0%N]
                    ++ [EvWritten OUTPUT_REPORT; EvRuntime] |},
     inr tt).
Proof.
  apply (X9_successful_run (steady_pool workbook_AB 0%N)).
  - apply (bool_decide_unpack _). vm_compute. reflexivity.
  - reflexivity.
  - apply perm_swap.
Defined.

(** X10: every run, whether it ends normally or with an exception, logs
    the runtime exactly once, as the last thing it does. *)
Theorem X10_runtime_logged_last (sheets : list string)
    (completed : list (result ScanResult)) (fs : gmap string string) :
  exists evs,
    trace (run sheets completed fs).1 = evs ++ [EvRuntime]
    /\ EvRuntime ∉ evs.
Proof.
  destruct (analyze_workbook sheets completed) as [e|results] eqn:Ha.
  - exists []. unfold run, main. rewrite Ha. cbn. split; [done|].
    intros H. inv H.
  - exists (EvWrite OUTPUT_REPORT (render results)
            :: map EvPreview results ++ [EvWritten OUTPUT_REPORT]).
    rewrite (run_success _ _ _ fs Ha). cbn. split.
    + f_equal. by rewrite <- app_assoc.
    + intros [H|H]%elem_of_cons; [done|].
      apply elem_of_app in H as [H|H].
      * apply list_elem_of_fmap in H as (? & ? & _). done.
      * apply list_elem_of_singleton in H. done.
Qed.

End OrchestratorCoverage.

(** * Further properties of the cell normaliser *)

Module NormalizeCoverage.
Import XlsxToParquet NormalizeProofs.

Lemma lstrip_nil_iff (s : pystr) : lstrip s = [] <-> forallb isspace s = true.
Proof.
  induction s as [|c s IH]; cbn; [done|].
  destruct (isspace c); cbn; [exact IH|]. split; done.
Qed.

Lemma forallb_isspace_rev (s : pystr) :
  forallb isspace (rev s) = forallb isspace s.
Proof.
  induction s as [|c s IH]; cbn; [done|].
  rewrite forallb_app, IH. cbn. rewrite andb_true_r. apply andb_comm.
Qed.

Lemma strip_nil_iff (s : pystr) : strip s = [] <-> forallb isspace s = true.
Proof.
  unfold strip, rstrip. split.
  - intros H. apply (f_equal (@rev N)) in H. rewrite rev_involutive in H. cbn in H.
    apply lstrip_nil_iff in H. rewrite forallb_isspace_rev in H.
    destruct (lstrip s) as [|c t] eqn:Hs; [by apply lstrip_nil_iff|].
    cbn in H. apply andb_true_iff in H as [Hc _].
    by rewrite (lstrip_head s c) in Hc by (by rewrite Hs).
  - intros H. apply lstrip_nil_iff in H. by rewrite H.
Qed.

Lemma re_sub_nil_iff (s : pystr) : re_sub_spaces s = [] <-> s = [].
Proof.
  unfold re_sub_spaces. destruct s as [|c s]; cbn; [done|].
  destruct (isspace c); split; done.
Qed.

(** X12: [normalize_cell] returns the empty text exactly for a missing
    value and for a value whose text is white space only (the empty text
    included). *)
Theorem X12_normalize_cell_empty_iff (x : pyval) :
  normalize_cell x = []
  <-> isna x = true \/ forallb isspace (str x) = true.
Proof.
  unfold normalize_cell. destruct (isna x).
  - split; [by left|done].
  - rewrite re_sub_nil_iff. unfold replace.
    rewrite <- strip_nil_iff. split.
    + intros H. right.
      destruct (strip (str x)); [done|discriminate H].
    + intros [?|H]; [done|]. by rewrite H.
Qed.

Lemma filter_visible_lstrip (s : pystr) :
  List.filter visible (lstrip s) = List.filter visible s.
Proof.
  induction s as [|c s IH]; [done|]. cbn [lstrip List.filter].
  change (visible c) with (negb (isspace c)).
  destruct (isspace c) eqn:Hc; cbn [negb]; [exact IH|].
  cbn [List.filter]. change (visible c) with (negb (isspace c)). by rewrite Hc.
Qed.

Lemma filter_visible_strip (s : pystr) :
  List.filter visible (strip s) = List.filter visible s.
Proof.
  unfold strip, rstrip.
  rewrite List.filter_rev, filter_visible_lstrip, List.filter_rev, rev_involutive.
  apply filter_visible_lstrip.
Qed.

Lemma filter_visible_replace (old : N) (s : pystr) :
  isspace old = true ->
  List.filter visible (replace old SP s) = List.filter visible s.
Proof.
  intros Hold. unfold replace. induction s as [|c s IH]; [done|].
  cbn [map List.filter]. rewrite IH.
  destruct (N.eqb_spec c old) as [->|]; [|done].
  change (visible SP) with false. change (visible old) with (negb (isspace old)).
  by rewrite Hold.
Qed.

Lemma filter_visible_re_sub (s : pystr) (b : bool) :
  List.filter visible (re_sub_from b s) = List.filter visible s.
Proof.
  revert b. induction s as [|c s IH]; intros b; [done|].
  cbn [re_sub_from List.filter]. change (visible c) with (negb (isspace c)).
  destruct (isspace c) eqn:Hc; cbn [negb].
  - destruct b; [apply IH|]. cbn [List.filter].
    change (visible SP) with false. apply IH.
  - cbn [List.filter]. change (visible c) with (negb (isspace c)).
    rewrite Hc. cbn [negb]. by rewrite IH.
Qed.

(** X13: [normalize_cell] neither drops, changes nor reorders a character
    that is not white space: the visible characters of its result are those
    of the text of the value (none for a missing value). *)
Theorem X13_normalize_cell_keeps_visible (x : pyval) :
  List.filter visible (normalize_cell x)
  = if isna x then [] else List.filter visible (str x).
Proof.
  unfold normalize_cell. destruct (isna x); [done|].
  unfold re_sub_spaces.
  rewrite filter_visible_re_sub, !filter_visible_replace by done.
  apply filter_visible_strip.
Qed.

Lemma normalize_cell_fixed (s : pystr) :
  trimmed s -> single_spaced false s = true -> normalize_cell (PStr s) = s.
Proof.
  intros Htrim Hsingle.
  assert (forall c, c ∈ s -> isspace c = true -> c = SP) as Hsp
    by (intros c; by apply (single_spaced_only_spaces s false)).
  assert (TAB ∉ s) as Htab by (intros H; by specialize (Hsp TAB H eq_refl)).
  assert (LF ∉ s) as Hlf by (intros H; by specialize (Hsp LF H eq_refl)).
  unfold normalize_cell. cbn [isna str].
  rewrite (strip_fixed s Htrim), (replace_absent LF SP s Hlf),
    (replace_absent TAB SP s Htab).
  by apply re_sub_fixed.
Qed.

Lemma normalize_cell_again (x : pyval) :
  normalize_cell (PStr (normalize_cell x)) = normalize_cell x.
Proof. destruct (normalize_cell_shape x). by apply normalize_cell_fixed. Qed.

(** X14: the texts that [normalize_cell] leaves as they are are exactly
    the trimmed, single-spaced ones. *)
Theorem X14_normalize_cell_fixed_points (s : pystr) :
  normalize_cell (PStr s) = s
  <-> trimmed s /\ single_spaced false s = true.
Proof.
  split.
  - intros H. rewrite <- H. apply normalize_cell_shape.
  - intros [Htrim Hsingle]. by apply normalize_cell_fixed.
Qed.

End NormalizeCoverage.

(** * Further properties of the dictionary builder *)

Module DictionaryCoverage.
Import XlsxToParquet NormalizeProofs NormalizeCoverage DictionaryProofs.

Lemma single_letter_Some (isalpha : N -> bool) (s : pystr) (c : N) :
  single_letter isalpha s = Some c -> s = [c] /\ isalpha c = true.
Proof.
  destruct s as [|a [|b s]]; cbn; try done.
  destruct (isalpha a) eqn:Ha; [|done]. by intros [= <-].
Qed.

(** The loop of [extract_level1_map], characterised at one code. *)
Lemma level1_fold_spec (isalpha : N -> bool) (rws : list (list pyval)) (k : pystr) :
  match
    fold_left
      (fun (l1_map : gmap pystr pystr) row =>
         let code := normalize_cell (at_col 0 row) in
         let name := normalize_cell (at_col 1 row) in
         match single_letter isalpha code with
         | Some _ => <[code := name]> l1_map
         | None => l1_map
         end) rws ∅ !! k
  with
  | None =>
      forall row, row ∈ rws -> normalize_cell (at_col 0 row) = k ->
                  single_letter isalpha k = None
  | Some v =>
      is_Some (single_letter isalpha k)
      /\ exists i row,
           rws !! i = Some row
           /\ normalize_cell (at_col 0 row) = k
           /\ normalize_cell (at_col 1 row) = v
           /\ forall j row', (i < j)%nat -> rws !! j = Some row' ->
                             normalize_cell (at_col 0 row') <> k
  end.
Proof.
  induction rws as [|x rws IH] using rev_ind.
  - cbn. rewrite lookup_empty. intros row H. inv H.
  - rewrite fold_left_app. cbn [fold_left].
    set (m := fold_left _ rws ∅) in *.
    destruct (single_letter isalpha (normalize_cell (at_col 0 x))) as [c|] eqn:Hx.
    + destruct (decide (normalize_cell (at_col 0 x) = k)) as [Hk|Hk].
      * rewrite Hk, lookup_insert_eq. split; [rewrite <- Hk, Hx; by eexists|].
        exists (length rws), x. split; [by rewrite list_lookup_middle|].
        split; [done|]. split; [done|].
        intros j row' Hj Hl. apply lookup_lt_Some in Hl.
        rewrite length_app in Hl. cbn in Hl. lia.
      * rewrite lookup_insert_ne by done.
        destruct (m !! k) as [v|].
        -- destruct IH as (Hsome & i & row & Hi & Hc & Hn & Hlast).
           split; [done|]. exists i, row.
           split; [by apply lookup_app_l_Some|]. split; [done|]. split; [done|].
           intros j row' Hj Hl. apply lookup_app_Some in Hl as [Hl|[Hlen Hl]].
           ++ by eapply Hlast.
           ++ apply list_lookup_singleton_Some in Hl as [_ <-]. done.
        -- intros row [Hr|Hr]%elem_of_app Hc; [by eapply IH|].
           apply list_elem_of_singleton in Hr. by subst.
    + destruct (m !! k) as [v|].
      * destruct IH as (Hsome & i & row & Hi & Hc & Hn & Hlast).
        split; [done|]. exists i, row.
        split; [by apply lookup_app_l_Some|]. split; [done|]. split; [done|].
        intros j row' Hj Hl. apply lookup_app_Some in Hl as [Hl|[Hlen Hl]].
        -- by eapply Hlast.
        -- apply list_lookup_singleton_Some in Hl as [_ <-].
           intros Heq. rewrite Heq in Hx. rewrite Hx in Hsome. by destruct Hsome.
      * intros row [Hr|Hr]%elem_of_app Hc; [by eapply IH|].
        apply list_elem_of_singleton in Hr. by subst.
Qed.

(** X15: the map [extract_level1_map] returns holds a code exactly when
    some row carries it (normalised) and it is a single letter; the name
    it gives is the normalised name of the last such row. *)
Theorem X15_level1_map_lookup (isalpha : N -> bool) (df_l1 : DataFrame)
    (m : gmap pystr pystr) (k : pystr) :
  extract_level1_map isalpha df_l1 = inr m ->
  (m !! k = None ->
     forall row, row ∈ rows df_l1 -> normalize_cell (at_col 0 row) = k ->
                 single_letter isalpha k = None)
  /\ (forall v, m !! k = Some v ->
        is_Some (single_letter isalpha k)
        /\ exists i row,
             rows df_l1 !! i = Some row
             /\ normalize_cell (at_col 0 row) = k
             /\ normalize_cell (at_col 1 row) = v
             /\ forall j row', (i < j)%nat -> rows df_l1 !! j = Some row' ->
                               normalize_cell (at_col 0 row') <> k).
Proof.
  unfold extract_level1_map.
  destruct (columns df_l1) as [|c1 [|c2 cs]]; try done.
  intros [= Hm]. pose proof (level1_fold_spec isalpha (rows df_l1) k) as H.
  cbv zeta in Hm, H. rewrite Hm in H.
  split.
  - intros Hnone. by rewrite Hnone in H.
  - intros v Hv. by rewrite Hv in H.
Qed.

Lemma X15_level1_map_lookup_witness :
  (({[ lit "E" := lit "Energy" ]} : gmap pystr pystr) !! lit "E" = None ->
     forall row, row ∈ rows sample_level1 -> normalize_cell (at_col 0 row) = lit "E" ->
                 single_letter ascii_letter (lit "E") = None)
  /\ (forall v, ({[ lit "E" := lit "Energy" ]} : gmap pystr pystr) !! lit "E" = Some v ->
        is_Some (single_letter ascii_letter (lit "E"))
        /\ exists i row,
             rows sample_level1 !! i = Some row
             /\ normalize_cell (at_col 0 row) = lit "E"
             /\ normalize_cell (at_col 1 row) = v
             /\ forall j row', (i < j)%nat -> rows sample_level1 !! j = Some row' ->
                               normalize_cell (at_col 0 row') <> lit "E").
Proof.
  apply (X15_level1_map_lookup ascii_letter sample_level1).
  vm_compute. reflexivity.
Defined.

Lemma upper_run_bound (n : nat) (s : pystr) :
  (upper_run n s <= n)%nat /\ (upper_run n s <= length s)%nat.
Proof.
  revert s. induction n as [|n IH]; intros [|c s]; cbn; try lia.
  destruct (is_upper c); cbn; [|lia]. destruct (IH s). lia.
Qed.

(** X16: the mask keeps a code exactly when the pattern, read literally,
    matches at its start, that is when the code begins with the sheet
    letter followed by an upper-case ASCII letter; the match takes two to
    four characters and whatever follows plays no role. *)
Theorem X16_mask_is_prefix_test (parent : N) (code : pystr) :
  (code_matches parent code = true <-> is_Some (re_match_code parent code))
  /\ (code_matches parent code = true
      <-> exists u rest, code = parent :: u :: rest /\ (65 <= u <= 90)%N)
  /\ (forall n, re_match_code parent code = Some n ->
                (2 <= n <= 4)%nat /\ (n <= length code)%nat)
  /\ (forall tail, code_matches parent code = true ->
                   code_matches parent (code ++ tail) = true).
Proof.
  split; [|split; [|split]].
  - destruct code as [|p [|u rest]]; cbn.
    + split; [done|]. by intros [? ?].
    + destruct (p =? parent)%N; cbn; (split; [done|]); by intros [? ?].
    + change ((65 <=? u)%N && (u <=? 90)%N) with (is_upper u).
      rewrite <- andb_assoc.
      change ((65 <=? u)%N && (u <=? 90)%N) with (is_upper u).
      destruct (p =? parent)%N; destruct (is_upper u); cbn;
        split; first [done | by intros [? ?] | by eexists].
  - destruct code as [|p [|u rest]]; cbn.
    + split; [done|]. by intros (? & ? & ? & _).
    + split; [done|]. by intros (? & ? & ? & _).
    + rewrite !andb_true_iff, N.eqb_eq, !N.leb_le. split.
      * intros [[-> ?] ?]. by exists u, rest.
      * intros (u' & rest' & [= -> -> ->] & ?). lia.
  - intros n. unfold re_match_code. destruct code as [|p rest]; [done|].
    destruct (p =? parent)%N; [|done]. cbv zeta.
    destruct (upper_run_bound 3 rest) as [H3 Hlen].
    destruct (upper_run 3 rest) as [|k]; [done|].
    intros [= <-]. cbn [length]. lia.
  - intros tail. destruct code as [|p [|u rest]]; cbn; done.
Qed.

Lemma filter_bool {B} (f : B -> bool) (l : list B) :
  filter (fun x => f x = true) l = List.filter f l.
Proof.
  induction l as [|x l IH]; [done|]. rewrite filter_cons. cbn [List.filter].
  rewrite IH. destruct (f x); by case_decide.
Qed.

Lemma filter_of_map {B C} (f : C -> bool) (g : B -> C) (l : list B) :
  List.filter f (map g l) = map g (List.filter (fun x => f (g x)) l).
Proof.
  induction l as [|x l IH]; cbn; [done|]. rewrite IH. by destruct (f (g x)).
Qed.

Lemma nth_normalized (i : nat) (row : list pyval) :
  nth i (map normalize_cell row) [] = normalize_cell (at_col i row).
Proof. unfold at_col. by rewrite <- (map_nth normalize_cell). Qed.

Lemma merge_comments_not_empty (has_comments : bool) (row : list pystr) :
  merge_comments has_comments row <> Some [].
Proof.
  unfold merge_comments. destruct has_comments; [|done].
  by destruct (join _ _).
Qed.

(** What every row of a tidied sheet carries. *)
Lemma tidy_row_facts (isalpha : N -> bool) (df : DataFrame)
    (sheet_name : pystr) (l1_map : gmap pystr pystr) (out : list TidyRow)
    (r : TidyRow) :
  tidy_letter_sheet isalpha df sheet_name l1_map = inr (Some out) ->
  r ∈ out ->
  exists letter,
    strip sheet_name = [letter]
    /\ isalpha letter = true
    /\ level1_code r = [letter]
    /\ level1_name r = l1_map !! [letter]
    /\ code_matches letter (level2_code r) = true
    /\ normalize_cell (PStr (level2_code r)) = level2_code r
    /\ normalize_cell (PStr (level2_name r)) = level2_name r
    /\ comments r <> Some [].
Proof.
  unfold tidy_letter_sheet.
  destruct (single_letter isalpha (strip sheet_name)) as [letter|] eqn:Hl; [|done].
  apply single_letter_Some in Hl as [Hstrip Halpha].
  destruct (columns df) as [|c1 [|c2 comment_cols]]; try done.
  intros [= <-] Hr. exists letter. split; [done|]. split; [done|].
  rewrite Hstrip in Hr.
  apply list_elem_of_fmap in Hr as (row & -> & Hrow). cbn.
  apply list_elem_of_filter in Hrow as [Hmatch Hrow].
  apply list_elem_of_fmap in Hrow as (row0 & -> & _).
  repeat split; try done.
  - rewrite nth_normalized. apply normalize_cell_again.
  - rewrite nth_normalized. apply normalize_cell_again.
  - apply merge_comments_not_empty.
Qed.

Lemma kept_codes (mk : list pystr -> TidyRow) (letter : N)
    (Hmk : forall row, level2_code (mk row) = nth 0 row [])
    (normalized : list (list pystr)) :
  map level2_code
    (map mk (filter (fun row => code_matches letter (nth 0 row []) = true) normalized))
  = List.filter (code_matches letter) (map (fun row => nth 0 row []) normalized).
Proof.
  rewrite (filter_bool (fun row => code_matches letter (nth 0 row []))).
  rewrite filter_of_map, map_map. apply map_ext. exact Hmk.
Qed.

(** X17: for a sheet named by a single letter, [tidy_letter_sheet] keeps
    exactly the rows whose normalised first cell passes the mask for that
    letter, in sheet order; every row it returns carries the letter, the
    name the level-1 map has for it, a normalised code and name, and a
    comment that is never the empty text. *)
Theorem X17_tidy_letter_sheet_rows (isalpha : N -> bool) (df : DataFrame)
    (sheet_name : pystr) (l1_map : gmap pystr pystr) (out : list TidyRow) :
  tidy_letter_sheet isalpha df sheet_name l1_map = inr (Some out) ->
  exists letter,
    strip sheet_name = [letter]
    /\ isalpha letter = true
    /\ map level2_code out
       = List.filter (code_matches letter)
           (map (fun row => normalize_cell (at_col 0 row)) (rows df))
    /\ Forall (fun r =>
                 level1_code r = [letter]
                 /\ level1_name r = l1_map !! [letter]
                 /\ code_matches letter (level2_code r) = true
                 /\ normalize_cell (PStr (level2_code r)) = level2_code r
                 /\ normalize_cell (PStr (level2_name r)) = level2_name r
                 /\ comments r <> Some []) out.
Proof.
  intros Htidy.
  assert (exists letter, strip sheet_name = [letter] /\ isalpha letter = true
          /\ map level2_code out
             = List.filter (code_matches letter)
                 (map (fun row => normalize_cell (at_col 0 row)) (rows df)))
    as (letter & Hstrip & Halpha & Hcodes).
  { revert Htidy. unfold tidy_letter_sheet.
    destruct (single_letter isalpha (strip sheet_name)) as [letter|] eqn:Hl; [|done].
    apply single_letter_Some in Hl as [Hstrip Halpha].
    destruct (columns df) as [|c1 [|c2 comment_cols]]; try done.
    intros [= <-]. exists letter. split; [done|]. split; [done|].
    etrans; [apply kept_codes; intros row; reflexivity|].
    f_equal. rewrite map_map. apply map_ext. intros row. apply nth_normalized. }
  exists letter. split; [done|]. split; [done|]. split; [done|].
  apply Forall_forall. intros r Hr.
  destruct (tidy_row_facts isalpha df sheet_name l1_map out r Htidy Hr)
    as (letter' & Hstrip' & _ & H).
  rewrite Hstrip in Hstrip'. injection Hstrip' as <-. exact H.
Qed.

Lemma X17_tidy_letter_sheet_rows_witness :
  exists letter,
    strip (lit " E ") = [letter]
    /\ ascii_letter letter = true
    /\ map level2_code sample_rows
       = List.filter (code_matches letter)
           (map (fun row => normalize_cell (at_col 0 row)) (rows sample_sheet_E))
    /\ Forall (fun r =>
                 level1_code r = [letter]
                 /\ level1_name r = ({[ lit "E" := lit "Energy" ]} : gmap pystr pystr) !! [letter]
                 /\ code_matches letter (level2_code r) = true
                 /\ normalize_cell (PStr (level2_code r)) = level2_code r
                 /\ normalize_cell (PStr (level2_name r)) = level2_name r
                 /\ comments r <> Some []) sample_rows.
Proof.
  apply (X17_tidy_letter_sheet_rows ascii_letter sample_sheet_E (lit " E ")
           {[ lit "E" := lit "Energy" ]} sample_rows).
  vm_compute. reflexivity.
Defined.

Lemma letter_pieces_spec (isalpha : N -> bool) (l1_map : gmap pystr pystr)
    (sheets : list (pystr * DataFrame)) :
  forall pieces,
    letter_pieces isalpha sheets l1_map = inr pieces ->
    Forall (fun piece =>
              exists sheet_name df letter,
                (sheet_name, df) ∈ sheets
                /\ single_letter isalpha sheet_name = Some letter
                /\ tidy_letter_sheet isalpha df sheet_name l1_map = inr piece)
           pieces.
Proof.
  induction sheets as [|[n df] sheets IH]; intros pieces; cbn.
  - intros [= <-]. constructor.
  - assert (forall pieces',
              letter_pieces isalpha sheets l1_map = inr pieces' ->
              Forall (fun piece =>
                        exists sheet_name df0 letter,
                          (sheet_name, df0) ∈ (n, df) :: sheets
                          /\ single_letter isalpha sheet_name = Some letter
                          /\ tidy_letter_sheet isalpha df0 sheet_name l1_map = inr piece)
                     pieces') as IH'.
    { intros pieces' H. eapply Forall_impl; [by apply IH|].
      intros piece (sn & df0 & letter & Hin & Hl & Ht).
      exists sn, df0, letter. split; [by right|done]. }
    case_bool_decide; [apply IH'|].
    destruct (single_letter isalpha n) as [letter|] eqn:Hl; [|apply IH'].
    destruct (tidy_letter_sheet isalpha df n l1_map) as [e|piece] eqn:Ht; cbn; [done|].
    destruct (letter_pieces isalpha sheets l1_map) as [e|rest] eqn:Hrest; cbn; [done|].
    intros [= <-]. constructor; [|by apply IH'].
    exists n, df, letter. split; [by left|done].
Qed.

Lemma concat_rows (pieces : list (option (list TidyRow))) (df_all : list TidyRow)
    (r : TidyRow) :
  concat pieces = inr df_all -> r ∈ df_all ->
  exists out, Some out ∈ pieces /\ r ∈ out.
Proof.
  unfold concat. destruct pieces as [|p0 pieces0]; [done|].
  destruct (forallb _ _); [done|]. intros [= <-] Hr.
  apply list_elem_of_In in Hr.
  apply (proj1 (in_flat_map (fun p : option (list TidyRow) => default [] p)
                  (p0 :: pieces0) r)) in Hr as ([out|] & Hin & Hr);
    cbn in Hr; [|done].
  exists out. split; by apply list_elem_of_In.
Qed.

Lemma strip_singleton (c c' : N) : strip [c] = [c'] -> c' = c.
Proof.
  unfold strip, rstrip. cbn [lstrip].
  destruct (isspace c) eqn:Hc; cbn [rev app lstrip]; rewrite ?Hc; cbn; [done|].
  by intros [= ->].
Qed.

(** Where a row of the gathered frame comes from. *)
Lemma collect_rows_origin (isalpha : N -> bool) (sheets : list (pystr * DataFrame))
    (df_all : list TidyRow) (r : TidyRow) :
  collect_rows isalpha sheets = inr df_all -> r ∈ df_all ->
  exists letter df,
    ([letter], df) ∈ sheets
    /\ isalpha letter = true
    /\ level1_code r = [letter]
    /\ code_matches letter (level2_code r) = true
    /\ normalize_cell (PStr (level2_code r)) = level2_code r
    /\ normalize_cell (PStr (level2_name r)) = level2_name r
    /\ comments r <> Some [].
Proof.
  unfold collect_rows.
  destruct (list_find _ sheets) as [[i [n l1_sheet]]|]; [|done].
  destruct (extract_level1_map isalpha l1_sheet) as [e|l1_map]; cbn; [done|].
  destruct (letter_pieces isalpha sheets l1_map) as [e|pieces] eqn:Hp; cbn; [done|].
  intros Hc Hr. destruct (concat_rows pieces df_all r Hc Hr) as (out & Hout & Hin).
  pose proof (letter_pieces_spec isalpha l1_map sheets pieces Hp) as Hspec.
  rewrite Forall_forall in Hspec.
  destruct (Hspec (Some out) Hout) as (sn & df & letter & Hsheet & Hl & Ht).
  apply single_letter_Some in Hl as [-> Halpha].
  destruct (tidy_row_facts isalpha df [letter] l1_map out r Ht Hin)
    as (letter' & Hstrip & _ & H1 & _ & H2 & H3 & H4 & H5).
  apply strip_singleton in Hstrip as ->.
  exists letter, df. done.
Qed.

Lemma insert_hepa_id_elem (df_all : list TidyRow) (e : Entry) :
  e ∈ insert_hepa_id df_all ->
  tidy e ∈ df_all /\ level e = 2 /\ code e = level2_code (tidy e)
  /\ name e = level2_name (tidy e) /\ path e = path_of (tidy e).
Proof.
  unfold insert_hepa_id. intros (i & r & -> & Hi)%elem_of_lookup_imap. cbn.
  split; [by eapply list_elem_of_lookup_2|done].
Qed.

(** X18: without a sheet named "Level 1" [build_dictionary] raises the
    [ValueError] of the script, whatever else the workbook holds. *)
Theorem X18_build_dictionary_needs_level1 (isalpha : N -> bool)
    (sheets : list (pystr * DataFrame)) :
  (forall e, e ∈ sheets -> e.1 <> lit "Level 1") ->
  build_dictionary isalpha sheets
  = inl (ValueError "No 'Level 1' sheet found in the Excel file.").
Proof.
  intros H. unfold build_dictionary, collect_rows.
  destruct (list_find _ sheets) as [[i e]|] eqn:Hf; [|done].
  apply list_find_Some in Hf as (Hi & He & _).
  apply list_elem_of_lookup_2 in Hi. by destruct (H e Hi).
Qed.

Lemma X18_build_dictionary_needs_level1_witness :
  build_dictionary ascii_letter [(lit "E", sample_sheet_E)]
  = inl (ValueError "No 'Level 1' sheet found in the Excel file.").
Proof.
  apply X18_build_dictionary_needs_level1.
  intros e He. apply list_elem_of_singleton in He. by subst.
Defined.

Lemma letter_pieces_none (isalpha : N -> bool) (l1_map : gmap pystr pystr)
    (sheets : list (pystr * DataFrame)) :
  (forall n df, (n, df) ∈ sheets -> n <> lit "Level 1" ->
                single_letter isalpha n = None) ->
  letter_pieces isalpha sheets l1_map = inr [].
Proof.
  induction sheets as [|[n df] sheets IH]; intros H; cbn; [done|].
  assert (letter_pieces isalpha sheets l1_map = inr []) as Hrest.
  { apply IH. intros n' df' Hin. apply (H n' df'). by right. }
  case_bool_decide as Hn; [done|].
  assert (single_letter isalpha n = None) as -> by (apply (H n df); [by left|done]).
  done.
Qed.

(** X19: with a "Level 1" sheet of at least two columns but no sheet named
    by a single letter, [build_dictionary] raises: there is nothing to
    concatenate. *)
Theorem X19_build_dictionary_needs_letter_sheet (isalpha : N -> bool)
    (sheets : list (pystr * DataFrame)) (df1 : DataFrame) :
  (lit "Level 1", df1) ∈ sheets ->
  (forall n df, (n, df) ∈ sheets -> n = lit "Level 1" ->
                (2 <= length (columns df))%nat) ->
  (forall n df, (n, df) ∈ sheets -> n <> lit "Level 1" ->
                single_letter isalpha n = None) ->
  build_dictionary isalpha sheets = inl (ValueError "No objects to concatenate").
Proof.
  intros Hl1 Hcols Hnone. unfold build_dictionary, collect_rows.
  destruct (list_find _ sheets) as [[i [n l1_sheet]]|] eqn:Hf.
  - apply list_find_Some in Hf as (Hi & Hn & _). cbn in Hn.
    apply list_elem_of_lookup_2 in Hi. specialize (Hcols n l1_sheet Hi Hn).
    unfold extract_level1_map.
    destruct (columns l1_sheet) as [|c1 [|c2 cs]]; cbn in Hcols; try lia.
    cbn. by rewrite letter_pieces_none.
  - apply list_find_None in Hf. rewrite Forall_forall in Hf.
    by destruct (Hf _ Hl1).
Qed.

Lemma X19_build_dictionary_needs_letter_sheet_witness :
  build_dictionary ascii_letter [(lit "Level 1", sample_level1)]
  = inl (ValueError "No objects to concatenate").
Proof.
  apply (X19_build_dictionary_needs_letter_sheet ascii_letter _ sample_level1).
  - by left.
  - intros n df [= -> ->]%list_elem_of_singleton _. cbn. lia.
  - intros n df [= -> ->]%list_elem_of_singleton Hn. done.
Defined.

(** X20: every row of the dictionary [build_dictionary] returns has level
    2, its code and name are its level-2 code and name, its level-1 code is
    a single letter that names a sheet of the workbook, its code is
    normalised and begins with that letter followed by an upper-case ASCII
    letter, and its path is single-spaced. *)
Theorem X20_dictionary_rows (isalpha : N -> bool)
    (sheets : list (pystr * DataFrame)) (df : list Entry) :
  build_dictionary isalpha sheets = inr df ->
  Forall (fun e =>
            level e = 2
            /\ code e = level2_code (tidy e)
            /\ name e = level2_name (tidy e)
            /\ normalize_cell (PStr (code e)) = code e
            /\ single_spaced false (path e) = true
            /\ exists letter sheet_df,
                 ([letter], sheet_df) ∈ sheets
                 /\ isalpha letter = true
                 /\ level1_code (tidy e) = [letter]
                 /\ code_matches letter (code e) = true) df.
Proof.
  unfold build_dictionary.
  destruct (collect_rows isalpha sheets) as [err|df_all] eqn:Hrows; cbn; [done|].
  intros [= <-]. apply Forall_forall. intros e He.
  apply insert_hepa_id_elem in He as (Hin & Hlevel & Hcode & Hname & Hpath).
  unfold sort_values in Hin. rewrite stable_sort_perm in Hin.
  destruct (collect_rows_origin isalpha sheets df_all (tidy e) Hrows Hin)
    as (letter & sheet_df & Hsheet & Halpha & Hl1 & Hmatch & Hnorm & _).
  split; [done|]. split; [done|]. split; [done|].
  split; [by rewrite Hcode|].
  split; [rewrite Hpath; apply re_sub_single_spaced|].
  exists letter, sheet_df. rewrite Hcode. done.
Qed.

Lemma X20_dictionary_rows_witness :
  Forall (fun e =>
            level e = 2
            /\ code e = level2_code (tidy e)
            /\ name e = level2_name (tidy e)
            /\ normalize_cell (PStr (code e)) = code e
            /\ single_spaced false (path e) = true
            /\ exists letter sheet_df,
                 ([letter], sheet_df) ∈ sample_sheets
                 /\ ascii_letter letter = true
                 /\ level1_code (tidy e) = [letter]
                 /\ code_matches letter (code e) = true)
    (insert_hepa_id (sort_values sample_rows)).
Proof.
  apply (X20_dictionary_rows ascii_letter sample_sheets).
  vm_compute. reflexivity.
Defined.

Lemma find_level1_skip (s1 s2 : list (pystr * DataFrame)) (x : pystr * DataFrame) :
  x.1 <> lit "Level 1" ->
  snd <$> list_find (fun e : pystr * DataFrame => e.1 = lit "Level 1") (s1 ++ x :: s2)
  = snd <$> list_find (fun e : pystr * DataFrame => e.1 = lit "Level 1") (s1 ++ s2).
Proof.
  intros Hx. induction s1 as [|y s1 IH]; cbn.
  - case_decide; [done|].
    by destruct (list_find _ s2) as [[? ?]|].
  - case_decide; [done|].
    destruct (list_find _ (s1 ++ x :: s2)) as [[? ?]|],
             (list_find _ (s1 ++ s2)) as [[? ?]|]; cbn in *; congruence.
Qed.

Lemma letter_pieces_skip (isalpha : N -> bool) (l1_map : gmap pystr pystr)
    (s1 s2 : list (pystr * DataFrame)) (n : pystr) (df : DataFrame) :
  n <> lit "Level 1" ->
  single_letter isalpha n = None ->
  letter_pieces isalpha (s1 ++ (n, df) :: s2) l1_map
  = letter_pieces isalpha (s1 ++ s2) l1_map.
Proof.
  intros Hn Hl. induction s1 as [|[m d] s1 IH]; cbn.
  - case_bool_decide; [done|]. by rewrite Hl.
  - by rewrite IH.
Qed.

(** X21: a sheet whose name is neither "Level 1" nor a single letter plays
    no role: [build_dictionary] gives the same outcome, result or
    exception, with and without it, wherever it stands in the workbook. *)
Theorem X21_other_sheets_ignored (isalpha : N -> bool)
    (s1 s2 : list (pystr * DataFrame)) (n : pystr) (df : DataFrame) :
  n <> lit "Level 1" ->
  single_letter isalpha n = None ->
  build_dictionary isalpha (s1 ++ (n, df) :: s2)
  = build_dictionary isalpha (s1 ++ s2).
Proof.
  intros Hn Hl. unfold build_dictionary. f_equal. unfold collect_rows.
  pose proof (find_level1_skip s1 s2 (n, df) Hn) as Hfind.
  destruct (list_find _ (s1 ++ (n, df) :: s2)) as [[i [m l1]]|],
           (list_find _ (s1 ++ s2)) as [[j [m' l1']]|]; cbn in Hfind; try done.
  injection Hfind as _ <-.
  destruct (extract_level1_map isalpha l1) as [e|l1_map]; cbn; [done|].
  by rewrite letter_pieces_skip.
Qed.

Lemma X21_other_sheets_ignored_witness :
  build_dictionary ascii_letter
    ([(lit "Level 1", sample_level1)] ++ (lit "Notes", sample_level1)
       :: [(lit "E", sample_sheet_E)])
  = build_dictionary ascii_letter
      ([(lit "Level 1", sample_level1)] ++ [(lit "E", sample_sheet_E)]).
Proof. apply X21_other_sheets_ignored; done. Defined.

(** X23: the level-1 name of every row of the dictionary is what the map
    extracted from the "Level 1" sheet holds for the row's level-1 code, and
    is missing when that sheet does not list the letter. *)
Theorem X23_level1_names_joined (isalpha : N -> bool)
    (sheets : list (pystr * DataFrame)) (df : list Entry) :
  build_dictionary isalpha sheets = inr df ->
  exists l1_sheet l1_map,
    (lit "Level 1", l1_sheet) ∈ sheets
    /\ extract_level1_map isalpha l1_sheet = inr l1_map
    /\ Forall (fun e => level1_name (tidy e) = l1_map !! level1_code (tidy e)) df.
Proof.
  unfold build_dictionary, collect_rows.
  destruct (list_find _ sheets) as [[i [n l1_sheet]]|] eqn:Hf; [|done].
  apply list_find_Some in Hf as (Hi & Hn & _). cbn in Hn. subst n.
  apply list_elem_of_lookup_2 in Hi.
  destruct (extract_level1_map isalpha l1_sheet) as [err|l1_map] eqn:Hmap; cbn; [done|].
  destruct (letter_pieces isalpha sheets l1_map) as [err|pieces] eqn:Hp; cbn; [done|].
  destruct (concat pieces) as [err|df_all] eqn:Hc; cbn; [done|].
  intros [= <-]. exists l1_sheet, l1_map. split; [done|]. split; [done|].
  apply Forall_forall. intros e He.
  apply insert_hepa_id_elem in He as (Hin & _).
  unfold sort_values in Hin. rewrite stable_sort_perm in Hin.
  destruct (concat_rows pieces df_all (tidy e) Hc Hin) as (out & Hout & Hr).
  pose proof (letter_pieces_spec isalpha l1_map sheets pieces Hp) as Hspec.
  rewrite Forall_forall in Hspec.
  destruct (Hspec (Some out) Hout) as (sn & sdf & letter & _ & _ & Ht).
  destruct (tidy_row_facts isalpha sdf sn l1_map out (tidy e) Ht Hr)
    as (letter' & _ & _ & Hcode & Hname & _).
  by rewrite Hname, Hcode.
Qed.

Lemma X23_level1_names_joined_witness :
  exists l1_sheet l1_map,
    (lit "Level 1", l1_sheet) ∈ sample_sheets
    /\ extract_level1_map ascii_letter l1_sheet = inr l1_map
    /\ Forall (fun e => level1_name (tidy e) = l1_map !! level1_code (tidy e))
         (insert_hepa_id (sort_values sample_rows)).
Proof.
  apply (X23_level1_names_joined ascii_letter sample_sheets).
  vm_compute. reflexivity.
Defined.

End DictionaryCoverage.
